(** * ERPBiometric-Sync: staging-to-checkin reconciliation and the daily
      exceptional report.

    A shallow embedding of
    [erpbiometric_sync/doctype/biometric_data_staging/biometric_data_staging.py].

    The Frappe document store is an external collaborator.  It is modelled as
    a record of tables ([World]); every call into it may raise, which is
    decided by an oracle [raises] the whole development is parametric in.
    A call that raises leaves the store as it was; Python exceptions do not
    roll the store back, so the state reached before the exception is kept. *)

From Stdlib Require Import List String ZArith Bool Arith Lia Permutation.
From Stdlib Require Import DecimalString.
Import ListNotations.

Local Open Scope string_scope.
Local Open Scope list_scope.

Infix "+++" := String.append (at level 60, right associativity).

(** ** Data model *)

(** The [status] Select field of a Biometric Data Staging document. *)
Inductive Status : Type := Pending | Processed | Duplicate | Ignored.

Definition Status_eqb (a b : Status) : bool :=
  match a, b with
  | Pending, Pending | Processed, Processed
  | Duplicate, Duplicate | Ignored, Ignored => true
  | _, _ => false
  end.

Definition status_str (s : Status) : string :=
  match s with
  | Pending => "Pending"
  | Processed => "Processed"
  | Duplicate => "Duplicate"
  | Ignored => "Ignored"
  end.

(** A row of `tabBiometric Data Staging`.  [name] is the primary key;
    [timestamp] is a Datetime, kept as seconds since the epoch. *)
Record Staging : Type := mkStaging {
  name : string;
  attendance_device_id : string;
  timestamp : Z;
  punch_type : string;
  device_id : string;
  status : Status
}.

(** The dict [frappe.get_all] yields for a row: the five requested fields,
    a snapshot that later writes to the table do not change. *)
Record Log : Type := mkLog {
  log_name : string;
  log_attendance_device_id : string;
  log_timestamp : Z;
  log_punch_type : string;
  log_device_id : string
}.

Record Employee : Type := mkEmployee {
  employee_name : string;
  employee_attendance_device_id : option string
}.

Record Checkin : Type := mkCheckin {
  employee : string;
  time : Z;
  log_type : string;
  checkin_device_id : string
}.

Record User : Type := mkUser {
  user_name : string;
  email : option string;
  enabled : bool;
  user_type : string
}.

(** A row of `tabHas Role`. *)
Record HasRole : Type := mkHasRole {
  parent : string;
  role : string
}.

Record EmailAccount : Type := mkEmailAccount {
  email_id : option string;
  default_outgoing : bool
}.

Record Communication : Type := mkCommunication {
  communication_name : nat;
  communication_type : string;
  communication_medium : string;
  subject : string;
  content : string;
  sender : string;
  recipients : string;
  reference_doctype : string;
  communication_status : string
}.

Record Mail : Type := mkMail {
  mail_recipients : list string;
  mail_subject : string;
  mail_sender : string;
  mail_message : string;
  mail_reference_doctype : string;
  mail_reference_name : nat;
  mail_expose_recipients : string
}.

(** A unit of background work handed to [frappe.enqueue]. *)
Record Job : Type := mkJob {
  job_method : string;
  job_queue_name : string;
  job_name : string;
  job_timeout : nat
}.

(** Calls into the framework.  The first five and [OpCommit] are the ones
    [process_biometric_logs] makes; the rest belong to the report. *)
Inductive Op : Type :=
| OpGetAllPending
| OpGetValueEmployee (adid : string)
| OpExistsCheckin (emp : string) (t : Z)
| OpInsertCheckin (c : Checkin)
| OpSetStatus (n : string) (st : Status)
| OpCommit
| OpReportQuery
| OpRecipientsQuery (roles : list string)
| OpGetValueSender
| OpInsertCommunication (c : Communication)
| OpSendmail (m : Mail)
| OpEnqueue (j : Job).

(** The document store together with the sinks the module writes to.
    [journal] lists the write calls that went through, oldest first. *)
Record World : Type := mkWorld {
  staging : list Staging;
  employees : list Employee;
  checkins : list Checkin;
  users : list User;
  has_roles : list HasRole;
  email_accounts : list EmailAccount;
  communications : list Communication;
  error_log : list (string * string);
  outbox : list Mail;
  stdout : list string;
  journal : list Op;
  curdate : Z;
  job_queue : list Job
}.

Definition with_staging (f : list Staging -> list Staging) (w : World) : World :=
  mkWorld (f (staging w)) (employees w) (checkins w) (users w) (has_roles w)
          (email_accounts w) (communications w) (error_log w) (outbox w)
          (stdout w) (journal w) (curdate w) (job_queue w).

Definition with_checkins (f : list Checkin -> list Checkin) (w : World) : World :=
  mkWorld (staging w) (employees w) (f (checkins w)) (users w) (has_roles w)
          (email_accounts w) (communications w) (error_log w) (outbox w)
          (stdout w) (journal w) (curdate w) (job_queue w).

Definition with_communications
    (f : list Communication -> list Communication) (w : World) : World :=
  mkWorld (staging w) (employees w) (checkins w) (users w) (has_roles w)
          (email_accounts w) (f (communications w)) (error_log w) (outbox w)
          (stdout w) (journal w) (curdate w) (job_queue w).

Definition with_error_log
    (f : list (string * string) -> list (string * string)) (w : World) : World :=
  mkWorld (staging w) (employees w) (checkins w) (users w) (has_roles w)
          (email_accounts w) (communications w) (f (error_log w)) (outbox w)
          (stdout w) (journal w) (curdate w) (job_queue w).

Definition with_outbox (f : list Mail -> list Mail) (w : World) : World :=
  mkWorld (staging w) (employees w) (checkins w) (users w) (has_roles w)
          (email_accounts w) (communications w) (error_log w) (f (outbox w))
          (stdout w) (journal w) (curdate w) (job_queue w).

Definition with_stdout (f : list string -> list string) (w : World) : World :=
  mkWorld (staging w) (employees w) (checkins w) (users w) (has_roles w)
          (email_accounts w) (communications w) (error_log w) (outbox w)
          (f (stdout w)) (journal w) (curdate w) (job_queue w).

Definition with_job_queue (f : list Job -> list Job) (w : World) : World :=
  mkWorld (staging w) (employees w) (checkins w) (users w) (has_roles w)
          (email_accounts w) (communications w) (error_log w) (outbox w)
          (stdout w) (journal w) (curdate w) (f (job_queue w)).

Definition with_journal (f : list Op -> list Op) (w : World) : World :=
  mkWorld (staging w) (employees w) (checkins w) (users w) (has_roles w)
          (email_accounts w) (communications w) (error_log w) (outbox w)
          (stdout w) (f (journal w)) (curdate w) (job_queue w).

Definition snoc {A : Type} (x : A) (l : list A) : list A := l ++ [x].

(** The effect of the three writes of the reconciliation on the store. *)
Definition apply_insert_checkin (c : Checkin) (w : World) : World :=
  with_journal (snoc (OpInsertCheckin c)) (with_checkins (snoc c) w).

Definition apply_commit (w : World) : World := with_journal (snoc OpCommit) w.

Definition apply_log_error (message title : string) (w : World) : World :=
  with_error_log (snoc (message, title)) w.

(** ** Python values and the exception monad *)

(** What a function of the module hands back to its caller. *)
Inductive PyValue : Type :=
| PyNone
| PyStr (s : string)
| PyCounts (ignored duplicate processed : nat).

Inductive Result (A : Type) : Type :=
| Ok (a : A)
| Raise (e : string).
Arguments Ok {A} a.
Arguments Raise {A} e.

(** A computation reads and writes the world and either returns or raises
    [Exception(e)]; the world reached is kept in both cases. *)
Definition M (A : Type) : Type := World -> Result A * World.

Definition ret {A : Type} (a : A) : M A := fun w => (Ok a, w).

Definition bind {A B : Type} (m : M A) (k : A -> M B) : M B :=
  fun w =>
    match m w with
    | (Ok a, w') => k a w'
    | (Raise e, w') => (Raise e, w')
    end.

(** [try: m  except Exception as e: h e] *)
Definition try_except {A : Type} (m : M A) (h : string -> M A) : M A :=
  fun w =>
    match m w with
    | (Ok a, w') => (Ok a, w')
    | (Raise e, w') => h e w'
    end.

Notation "x <- m ;; k" := (bind m (fun x => k))
  (at level 61, m at next level, right associativity).
Notation "m ;;; k" := (bind m (fun _ => k))
  (at level 61, right associativity).

(** [for x in l: body x] *)
Fixpoint for_each {A : Type} (body : A -> M unit) (l : list A) : M unit :=
  match l with
  | [] => ret tt
  | x :: rest => body x ;;; for_each body rest
  end.

(** ** Store queries, as pure functions of the tables *)

Definition to_log (r : Staging) : Log :=
  mkLog (name r) (attendance_device_id r) (timestamp r) (punch_type r) (device_id r).

(** [filters={"status": "Pending"}] *)
Definition is_pending (r : Staging) : bool := Status_eqb (status r) Pending.

Definition pending_logs (rows : list Staging) : list Log :=
  map to_log (filter is_pending rows).

Definition employee_matches (adid : string) (e : Employee) : bool :=
  match employee_attendance_device_id e with
  | Some a => String.eqb a adid
  | None => false
  end.

(** [frappe.get_value("Employee", {"attendance_device_id": adid}, "name")]:
    the name of the first matching row, [None] when there is none. *)
Definition lookup_employee (adid : string) (es : list Employee) : option string :=
  option_map employee_name (find (employee_matches adid) es).

Definition checkin_matches (emp : string) (t : Z) (c : Checkin) : bool :=
  String.eqb (employee c) emp && Z.eqb (time c) t.

(** [frappe.db.exists("Employee Checkin", {"employee": emp, "time": t})] *)
Definition has_checkin (emp : string) (t : Z) (cs : list Checkin) : bool :=
  existsb (checkin_matches emp t) cs.

(** [UPDATE ... SET status = st WHERE name = n] *)
Definition set_status (n : string) (st : Status) (rows : list Staging) : list Staging :=
  map (fun r => if String.eqb (name r) n
                then mkStaging (name r) (attendance_device_id r) (timestamp r)
                               (punch_type r) (device_id r) st
                else r) rows.

Definition apply_set_status (n : string) (st : Status) (w : World) : World :=
  with_journal (snoc (OpSetStatus n st)) (with_staging (set_status n st) w).

(** Truth value of a string-or-None in an [if]. *)
Definition truthy (o : option string) : bool :=
  match o with
  | Some s => negb (String.eqb s EmptyString)
  | None => false
  end.

(** [DATE(ts)] as a day number. *)
Definition date_of (ts : Z) : Z := (ts / 86400)%Z.

Definition count_today (w : World) (st : Status) : nat :=
  List.length (filter (fun r => Status_eqb (status r) st
                                && Z.eqb (date_of (timestamp r)) (curdate w))
                      (staging w)).

(** The grouped query of [send_exceptional_report]: one (status, count) row
    per status of the IN-list that occurs today. *)
Definition report_rows (w : World) : list (Status * nat) :=
  flat_map (fun st => match count_today w st with
                      | O => []
                      | n => [(st, n)]
                      end)
           [Ignored; Pending; Processed].

Definition holds_role (roles : list string) (u : User) (hs : list HasRole) : bool :=
  existsb (fun h => String.eqb (parent h) (user_name u)
                    && existsb (String.eqb (role h)) roles) hs.

Fixpoint distinct (l : list string) : list string :=
  match l with
  | [] => []
  | x :: rest => x :: filter (fun y => negb (String.eqb y x)) (distinct rest)
  end.

(** The SELECT DISTINCT of [get_recipients_by_roles]. *)
Definition recipient_rows (roles : list string) (w : World) : list string :=
  distinct
    (flat_map (fun u => if enabled u && String.eqb (user_type u) "System User"
                           && holds_role roles u (has_roles w)
                        then match email u with Some e => [e] | None => [] end
                        else [])
              (users w)).

(** [frappe.db.get_value("Email Account", {"default_outgoing": 1}, "email_id")] *)
Definition lookup_sender (w : World) : option string :=
  match find default_outgoing (email_accounts w) with
  | Some a => email_id a
  | None => None
  end.

Definition str_of_nat (n : nat) : string := NilZero.string_of_uint (Nat.to_uint n).

Section Module_code.

(** [raises op w = Some e]: the call [op], made in world [w], raises
    [Exception(e)]. *)
Variable raises : Op -> World -> option string.

(** A call into the framework: raise when the oracle says so, else run. *)
Definition call {A : Type} (op : Op) (run : World -> A * World) : M A :=
  fun w =>
    match raises op w with
    | Some e => (Raise e, w)
    | None => let (a, w') := run w in (Ok a, w')
    end.

Definition get_all_pending : M (list Log) :=
  call OpGetAllPending (fun w => (pending_logs (staging w), w)).

Definition get_value_employee (adid : string) : M (option string) :=
  call (OpGetValueEmployee adid) (fun w => (lookup_employee adid (employees w), w)).

Definition db_exists_checkin (emp : string) (t : Z) : M bool :=
  call (OpExistsCheckin emp t) (fun w => (has_checkin emp t (checkins w), w)).

Definition insert_checkin (c : Checkin) : M unit :=
  call (OpInsertCheckin c) (fun w => (tt, apply_insert_checkin c w)).

Definition db_set_value_status (n : string) (st : Status) : M unit :=
  call (OpSetStatus n st) (fun w => (tt, apply_set_status n st w)).

Definition db_commit : M unit :=
  call OpCommit (fun w => (tt, apply_commit w)).

(** [frappe.log_error(message, title)]: the best-effort error sink. *)
Definition log_error (message title : string) : M unit :=
  fun w => (Ok tt, apply_log_error message title w).

Definition print (s : string) : M unit :=
  fun w => (Ok tt, with_stdout (snoc s) w).

(** ** enqueue_process_biometric_logs *)

Definition enqueue_process_biometric_logs : M PyValue :=
  let j := mkJob ("erpbiometric_sync.erpbiometric_sync.doctype."
                  +++ "biometric_data_staging.biometric_data_staging."
                  +++ "process_biometric_logs")
                 "long" "Process Biometric Logs" 3600 in
  call (OpEnqueue j) (fun w => (tt, with_job_queue (snoc j) w)) ;;;
  ret (PyStr "Employee Checkin synchronization has started in the background.").

(** ** process_biometric_logs *)

(** The body of the [try] for one log. *)
Definition process_log_body (log : Log) : M unit :=
  emp <- get_value_employee (log_attendance_device_id log) ;;
  match emp with
  | Some e =>
      if truthy emp then
        duplicate_check <- db_exists_checkin e (log_timestamp log) ;;
        if duplicate_check then
          db_set_value_status (log_name log) Duplicate
        else
          insert_checkin (mkCheckin e (log_timestamp log) (log_punch_type log)
                                    (log_device_id log)) ;;;
          db_set_value_status (log_name log) Processed
      else
        db_set_value_status (log_name log) Ignored
  | None => db_set_value_status (log_name log) Ignored
  end.

Definition failure_message (log : Log) (e : string) : string :=
  "Failed to process log " +++ log_name log +++ ": " +++ e.

(** One iteration of the loop: the [try] with its [except Exception]. *)
Definition process_log (log : Log) : M unit :=
  try_except (process_log_body log)
             (fun e => log_error (failure_message log e)
                                 "Biometric Log Processing Error").

Definition process_logs (logs : list Log) : M unit := for_each process_log logs.

(** The world after one iteration, and after the loop over [logs]. *)
Definition step (log : Log) (w : World) : World := snd (process_log log w).

Definition run (logs : list Log) (w : World) : World :=
  fold_left (fun w' log => step log w') logs w.

Definition process_biometric_logs : M PyValue :=
  unsynced_logs <- get_all_pending ;;
  process_logs unsynced_logs ;;;
  db_commit ;;;
  ret PyNone.

(** ** get_recipients_by_roles and send_exceptional_report *)

Definition get_recipients_by_roles (roles : list string) : M (list string) :=
  call (OpRecipientsQuery roles) (fun w => (recipient_rows roles w, w)).

Definition report_row_html (r : Status * nat) : string :=
  "<tr><td>" +++ status_str (fst r) +++ "</td><td>" +++ str_of_nat (snd r)
  +++ "</td></tr>".

Definition compose_email_body (report_data : list (Status * nat)) : string :=
  "<h3>Exceptional Report Summary</h3>"
  +++ "<table border='1' style='border-collapse: collapse;'>"
  +++ "<tr><th>Status</th><th>Count</th></tr>"
  +++ String.concat EmptyString (map report_row_html report_data)
  +++ "</table>".

Definition report_subject : string := "Exceptional Report - Biometric Data Staging".

Definition insert_communication (body sndr : string) (rcpts : list string)
    : M Communication :=
  fun w =>
    let c := mkCommunication (List.length (communications w)) "Automated Message"
               "Email" report_subject body sndr (String.concat ", " rcpts)
               "Biometric Data Staging" "Linked" in
    call (OpInsertCommunication c)
         (fun w' => (c, with_journal (snoc (OpInsertCommunication c))
                          (with_communications (snoc c) w'))) w.

Definition sendmail (m : Mail) : M unit :=
  call (OpSendmail m) (fun w => (tt, with_outbox (snoc m) w)).

Definition send_exceptional_report : M PyValue :=
  report_data <- call OpReportQuery (fun w => (report_rows w, w)) ;;
  match report_data with
  | [] => print "No exceptional records to report." ;;; ret PyNone
  | _ :: _ =>
      let email_body := compose_email_body report_data in
      let roles := ["System Manager"; "HR Manager"] in
      rcpts <- get_recipients_by_roles roles ;;
      match rcpts with
      | [] =>
          log_error "No recipients found for the exceptional report"
                    "Exceptional Report" ;;;
          print "No recipients found for the exceptional report." ;;;
          ret PyNone
      | _ :: _ =>
          sndr <- call OpGetValueSender (fun w => (lookup_sender w, w)) ;;
          match sndr with
          | Some s =>
              if truthy sndr then
                communication <- insert_communication email_body s rcpts ;;
                try_except
                  (sendmail (mkMail rcpts report_subject s email_body
                                    "Communication"
                                    (communication_name communication) "header") ;;;
                   print ("Exceptional report email sent to: "
                          +++ String.concat ", " rcpts))
                  (fun e =>
                     print ("Failed to send exceptional report email: " +++ e) ;;;
                     log_error ("Failed to send email: " +++ e) "Exceptional Report") ;;;
                ret PyNone
              else
                log_error "No default sender email is configured."
                          "Exceptional Report" ;;;
                print "No default sender email is configured." ;;;
                ret PyNone
          | None =>
              log_error "No default sender email is configured."
                        "Exceptional Report" ;;;
              print "No default sender email is configured." ;;;
              ret PyNone
          end
      end
  end.

End Module_code.

(** The oracle under which no call raises. *)
Definition no_raise : Op -> World -> option string := fun _ _ => None.

(** ** execute_scheduled_job and execute_scheduled_exceptional_report *)

Section Scheduled_code.

Variable raises : Op -> World -> option string.

(** A bare [raise] inside a handler: the exception goes on to the caller. *)
Definition reraise {A : Type} (e : string) : M A := fun w => (Raise e, w).

Definition execute_scheduled_job : M PyValue :=
  try_except
    (process_biometric_logs raises ;;; ret tt)
    (fun e =>
       log_error ("Error in scheduled biometric data synchronization: " +++ e)
                 "Scheduled Job Error" ;;;
       reraise e) ;;;
  ret PyNone.

Definition execute_scheduled_exceptional_report : M PyValue :=
  try_except
    (send_exceptional_report raises ;;; ret tt)
    (fun e =>
       log_error ("Error in scheduled exceptional report: " +++ e)
                 "Scheduled Job Error" ;;;
       reraise e) ;;;
  ret PyNone.

End Scheduled_code.

(** ** Observations on the store *)

Definition status_of (n : string) (rows : list Staging) : option Status :=
  option_map status (find (fun r => String.eqb (name r) n) rows).

Definition count_checkins (emp : string) (t : Z) (cs : list Checkin) : nat :=
  List.length (filter (checkin_matches emp t) cs).

Definition is_status_write (n : string) (op : Op) : bool :=
  match op with
  | OpSetStatus m _ => String.eqb m n
  | _ => false
  end.

(** How many times the status of document [n] was written in a journal. *)
Definition status_writes (n : string) (j : list Op) : nat :=
  List.length (filter (is_status_write n) j).

Definition new_checkin (e : string) (log : Log) : Checkin :=
  mkCheckin e (log_timestamp log) (log_punch_type log) (log_device_id log).

(** The (employee, time) pair a log is checked against, when it resolves. *)
Definition dup_keys (es : list Employee) (log : Log) : list (string * Z) :=
  match lookup_employee (log_attendance_device_id log) es with
  | Some e => if truthy (Some e) then [(e, log_timestamp log)] else []
  | None => []
  end.

(** The status a log gets when no call raises. *)
Definition verdict (w : World) (log : Log) : Status :=
  match lookup_employee (log_attendance_device_id log) (employees w) with
  | Some e =>
      if truthy (Some e) then
        if has_checkin e (log_timestamp log) (checkins w) then Duplicate
        else Processed
      else Ignored
  | None => Ignored
  end.

(** The checkins the iteration of a log appends when no call raises. *)
Definition added_checkins (w : World) (log : Log) : list Checkin :=
  match verdict w log with
  | Processed =>
      match lookup_employee (log_attendance_device_id log) (employees w) with
      | Some e => [new_checkin e log]
      | None => []
      end
  | _ => []
  end.

Definition error_title : string := "Biometric Log Processing Error".

(** What the [try] body of one iteration can do to the store. *)
Inductive body_result (log : Log) (w : World) : Result unit -> World -> Prop :=
| body_ignored :
    truthy (lookup_employee (log_attendance_device_id log) (employees w)) = false ->
    body_result log w (Ok tt) (apply_set_status (log_name log) Ignored w)
| body_duplicate e :
    lookup_employee (log_attendance_device_id log) (employees w) = Some e ->
    truthy (Some e) = true ->
    has_checkin e (log_timestamp log) (checkins w) = true ->
    body_result log w (Ok tt) (apply_set_status (log_name log) Duplicate w)
| body_processed e :
    lookup_employee (log_attendance_device_id log) (employees w) = Some e ->
    truthy (Some e) = true ->
    has_checkin e (log_timestamp log) (checkins w) = false ->
    body_result log w (Ok tt)
      (apply_set_status (log_name log) Processed
         (apply_insert_checkin (new_checkin e log) w))
| body_raised msg :
    body_result log w (Raise msg) w
| body_raised_after_insert e msg :
    lookup_employee (log_attendance_device_id log) (employees w) = Some e ->
    truthy (Some e) = true ->
    has_checkin e (log_timestamp log) (checkins w) = false ->
    body_result log w (Raise msg) (apply_insert_checkin (new_checkin e log) w).

(** What an iteration does to the three tables and the journal. *)
Inductive step_effect (log : Log) (w w' : World) : Prop :=
| effect_none :
    staging w' = staging w -> checkins w' = checkins w ->
    journal w' = journal w -> step_effect log w w'
| effect_status st :
    st <> Pending -> (st = Processed -> False) ->
    staging w' = set_status (log_name log) st (staging w) ->
    checkins w' = checkins w ->
    journal w' = journal w ++ [OpSetStatus (log_name log) st] ->
    step_effect log w w'
| effect_insert e :
    has_checkin e (log_timestamp log) (checkins w) = false ->
    staging w' = staging w ->
    checkins w' = checkins w ++ [new_checkin e log] ->
    journal w' = journal w ++ [OpInsertCheckin (new_checkin e log)] ->
    step_effect log w w'
| effect_processed e :
    has_checkin e (log_timestamp log) (checkins w) = false ->
    staging w' = set_status (log_name log) Processed (staging w) ->
    checkins w' = checkins w ++ [new_checkin e log] ->
    journal w' = journal w ++ [OpInsertCheckin (new_checkin e log);
                               OpSetStatus (log_name log) Processed] ->
    step_effect log w w'.

(** Two stores with the same staging and employee tables and the same
    checkins up to their order. *)
Definition same_tables (w w' : World) : Prop :=
  staging w = staging w' /\ employees w = employees w'
  /\ Permutation (checkins w) (checkins w').

(** The report of counts per outcome a pass from [w] to [w'] would carry:
    the rows pending in [w] that are Ignored, Duplicate, Processed in [w']. *)
Definition count_outcome (w w' : World) (st : Status) : nat :=
  List.length (filter (fun l => match status_of (log_name l) (staging w') with
                                | Some s => Status_eqb s st
                                | None => false
                                end)
                      (pending_logs (staging w))).

Definition outcome_counts (w w' : World) : PyValue :=
  PyCounts (count_outcome w w' Ignored) (count_outcome w w' Duplicate)
           (count_outcome w w' Processed).

(** ** The report's preconditions, and three readings of the specification *)

Definition report_roles : list string := ["System Manager"; "HR Manager"].

Section Claims.

Variable raises : Op -> World -> option string.

(** The grouped query returns and has no row. *)
Definition no_data (w : World) : Prop :=
  raises OpReportQuery w = None /\ report_rows w = [].

(** There are rows, the recipients query returns and has no row. *)
Definition no_recipients (w : World) : Prop :=
  raises OpReportQuery w = None /\ report_rows w <> []
  /\ raises (OpRecipientsQuery report_roles) w = None
  /\ recipient_rows report_roles w = [].

(** There are rows and recipients, the sender lookup returns nothing usable. *)
Definition no_sender (w : World) : Prop :=
  raises OpReportQuery w = None /\ report_rows w <> []
  /\ raises (OpRecipientsQuery report_roles) w = None
  /\ recipient_rows report_roles w <> []
  /\ raises OpGetValueSender w = None
  /\ truthy (lookup_sender w) = false.

(** The report returned without sending and put one entry in the error log. *)
Definition logged_and_returned (w : World) : Prop :=
  let r := send_exceptional_report raises w in
  fst r = Ok PyNone /\ outbox (snd r) = outbox w
  /\ exists entry, error_log (snd r) = error_log w ++ [entry].

(** The pass handed back the counts of its outcomes. *)
Definition returns_outcome_counts (w : World) : Prop :=
  let r := process_biometric_logs raises w in
  fst r = Ok (outcome_counts w (snd r)).

(** Any order of the pending set gives the same statuses and checkin set. *)
Definition order_independent (w : World) : Prop :=
  forall logs,
    Permutation (pending_logs (staging w)) logs ->
    staging (run raises logs w) = staging (run raises (pending_logs (staging w)) w)
    /\ Permutation (checkins (run raises logs w))
                   (checkins (run raises (pending_logs (staging w)) w)).

End Claims.

(** An oracle under which every checkin insert is refused. *)
Definition insert_refused : Op -> World -> option string :=
  fun op _ =>
    match op with
    | OpInsertCheckin _ => Some "ValidationError"
    | _ => None
    end.

(** The Communication document and the mail of a report run from [w] with
    sender [s]. *)
Definition report_communication (w : World) (s : string) : Communication :=
  mkCommunication (List.length (communications w)) "Automated Message" "Email"
                  report_subject (compose_email_body (report_rows w)) s
                  (String.concat ", " (recipient_rows report_roles w))
                  "Biometric Data Staging" "Linked".

Definition report_mail (w : World) (s : string) : Mail :=
  mkMail (recipient_rows report_roles w) report_subject s
         (compose_email_body (report_rows w)) "Communication"
         (List.length (communications w)) "header".

(** The store once the Communication of the report is inserted. *)
Definition with_report_communication (w : World) (s : string) : World :=
  with_journal (snoc (OpInsertCommunication (report_communication w s)))
               (with_communications (snoc (report_communication w s)) w).

Section Report_conditions.

Variable raises : Op -> World -> option string.

(** Everything the report needs before it sends is there: the three reads
    return, there are rows and recipients, the default outgoing account has
    the non-empty address [s], and the Communication can be inserted. *)
Definition report_ready (w : World) (s : string) : Prop :=
  raises OpReportQuery w = None /\ report_rows w <> []
  /\ raises (OpRecipientsQuery report_roles) w = None
  /\ recipient_rows report_roles w <> []
  /\ raises OpGetValueSender w = None
  /\ lookup_sender w = Some s /\ s <> EmptyString
  /\ raises (OpInsertCommunication (report_communication w s)) w = None.

End Report_conditions.

(** An oracle under which the database cannot be read. *)
Definition db_down : Op -> World -> option string :=
  fun op _ =>
    match op with
    | OpGetAllPending | OpReportQuery => Some "OperationalError"
    | _ => None
    end.

(** An oracle under which the mail server refuses every message. *)
Definition smtp_down : Op -> World -> option string :=
  fun op _ =>
    match op with
    | OpSendmail _ => Some "SMTPServerDisconnected"
    | _ => None
    end.

(** An oracle under which the write of status Processed fails as long as
    the error log is empty, and goes through afterwards. *)
Definition status_write_fails_once : Op -> World -> option string :=
  fun op w =>
    match op, error_log w with
    | OpSetStatus _ Processed, [] => Some "QueryDeadlockError"
    | _, _ => None
    end.

(** ** Sample stores *)

(** Today's rows but nobody to write to. *)
Definition lonely_world : World :=
  mkWorld [mkStaging "BDS-0001" "A100" 1735725600 "IN" "D1" Pending]
          [] [] [] [] [] [] [] [] [] [] 20089 [].

(** Today's rows and a recipient, but no default outgoing account. *)
Definition senderless_world : World :=
  mkWorld [mkStaging "BDS-0001" "A100" 1735725600 "IN" "D1" Pending]
          [] []
          [mkUser "hr@example.com" (Some "hr@example.com") true "System User"]
          [mkHasRole "hr@example.com" "HR Manager"]
          [mkEmailAccount (Some "noreply@example.com") false]
          [] [] [] [] [] 20089 [].

(** Two pending punches of the same person at the same instant. *)
Definition twin_world : World :=
  mkWorld [mkStaging "BDS-0001" "A100" 1735725600 "IN" "D1" Pending;
           mkStaging "BDS-0002" "A100" 1735725600 "OUT" "D2" Pending]
          [mkEmployee "HR-EMP-00001" (Some "A100")]
          [] [] [] [] [] [] [] [] [] 20089 [].


Definition T0 : Z := 1735725600%Z.

Definition base_world : World :=
  mkWorld [] [mkEmployee "HR-EMP-00001" (Some "A100");
              mkEmployee "HR-EMP-00002" (Some "A200");
              mkEmployee "HR-EMP-00003" None]
          [mkCheckin "HR-EMP-00002" T0 "IN" "D1"]
          [] [] [] [] [] [] [] [] (date_of T0) [].

(** Three pending rows, one of each outcome, and a row already settled. *)
Definition sample_world : World :=
  with_staging (fun _ =>
    [mkStaging "BDS-0001" "A100" T0 "IN" "D1" Pending;
     mkStaging "BDS-0002" "A200" T0 "IN" "D1" Pending;
     mkStaging "BDS-0003" "UNKNOWN" T0 "OUT" "D2" Pending;
     mkStaging "BDS-0004" "A100" (T0 - 3600) "IN" "D1" Processed]) base_world.

(** All rows settled: nothing for a pass to do. *)
Definition settled_world : World :=
  mkWorld [mkStaging "BDS-0001" "A100" 1735725600 "IN" "D1" Processed;
           mkStaging "BDS-0002" "UNKNOWN" 1735725600 "IN" "D1" Ignored]
          [mkEmployee "HR-EMP-00001" (Some "A100")]
          [mkCheckin "HR-EMP-00001" 1735725600 "IN" "D1"]
          [] [] [] [] [] [] [] [] 20089 [].

(** Today's rows of every status, two managers sharing a mailbox, a
    disabled user, a website user, and a default outgoing account. *)
Definition reporting_world : World :=
  mkWorld [mkStaging "BDS-0001" "A100" 1735725600 "IN" "D1" Pending;
           mkStaging "BDS-0002" "A100" 1735725700 "OUT" "D1" Processed;
           mkStaging "BDS-0003" "A200" 1735725800 "IN" "D1" Processed;
           mkStaging "BDS-0004" "A200" 1735725900 "IN" "D1" Duplicate;
           mkStaging "BDS-0005" "A300" 1735639200 "IN" "D1" Ignored]
          [] []
          [mkUser "admin@example.com" (Some "hr@example.com") true "System User";
           mkUser "hr@example.com" (Some "hr@example.com") true "System User";
           mkUser "old@example.com" (Some "old@example.com") false "System User";
           mkUser "guest@example.com" (Some "guest@example.com") true "Website User";
           mkUser "ops@example.com" (Some "ops@example.com") true "System User"]
          [mkHasRole "admin@example.com" "System Manager";
           mkHasRole "hr@example.com" "HR Manager";
           mkHasRole "old@example.com" "HR Manager";
           mkHasRole "guest@example.com" "HR Manager";
           mkHasRole "ops@example.com" "Accounts User"]
          [mkEmailAccount (Some "support@example.com") false;
           mkEmailAccount (Some "noreply@example.com") true]
          [] [] [] [] [] 20089 [].

(** The pending logs of [sample_world], in table order. *)
Definition log1 : Log := mkLog "BDS-0001" "A100" T0 "IN" "D1".
Definition log2 : Log := mkLog "BDS-0002" "A200" T0 "IN" "D1".
Definition log3 : Log := mkLog "BDS-0003" "UNKNOWN" T0 "OUT" "D2".

(** * Properties *)

(** ** The store after a write *)

Lemma staging_apply_set_status n st w :
  staging (apply_set_status n st w) = set_status n st (staging w).
Proof. reflexivity. Qed.

Lemma checkins_apply_set_status n st w :
  checkins (apply_set_status n st w) = checkins w.
Proof. reflexivity. Qed.

Lemma journal_apply_set_status n st w :
  journal (apply_set_status n st w) = journal w ++ [OpSetStatus n st].
Proof. reflexivity. Qed.

Lemma staging_apply_insert_checkin c w :
  staging (apply_insert_checkin c w) = staging w.
Proof. reflexivity. Qed.

Lemma checkins_apply_insert_checkin c w :
  checkins (apply_insert_checkin c w) = checkins w ++ [c].
Proof. reflexivity. Qed.

Lemma journal_apply_insert_checkin c w :
  journal (apply_insert_checkin c w) = journal w ++ [OpInsertCheckin c].
Proof. reflexivity. Qed.

Lemma staging_apply_log_error m t w :
  staging (apply_log_error m t w) = staging w.
Proof. reflexivity. Qed.

Lemma checkins_apply_log_error m t w :
  checkins (apply_log_error m t w) = checkins w.
Proof. reflexivity. Qed.

Lemma journal_apply_log_error m t w :
  journal (apply_log_error m t w) = journal w.
Proof. reflexivity. Qed.

Lemma error_log_apply_log_error m t w :
  error_log (apply_log_error m t w) = error_log w ++ [(m, t)].
Proof. reflexivity. Qed.

Create Rewrite HintDb world.
#[global] Hint Rewrite staging_apply_set_status checkins_apply_set_status
  journal_apply_set_status staging_apply_insert_checkin
  checkins_apply_insert_checkin journal_apply_insert_checkin
  staging_apply_log_error checkins_apply_log_error journal_apply_log_error
  error_log_apply_log_error : world.

(** ** Tables: status lookup, status update, checkin search *)

Lemma Status_eqb_eq a b : Status_eqb a b = true <-> a = b.
Proof. destruct a, b; simpl; split; intros H; try reflexivity; discriminate. Qed.

Lemma set_status_names n st rows :
  map name (set_status n st rows) = map name rows.
Proof.
  induction rows as [|r rows IH]; simpl; [reflexivity|].
  rewrite IH. destruct (String.eqb (name r) n); reflexivity.
Qed.

Lemma status_of_set_status_same n st rows :
  In n (map name rows) -> status_of n (set_status n st rows) = Some st.
Proof.
  unfold status_of. induction rows as [|r rows IH]; simpl; [tauto|].
  intros [Hn | Hin].
  - subst n. rewrite String.eqb_refl. simpl. rewrite String.eqb_refl. reflexivity.
  - destruct (String.eqb (name r) n) eqn:E; simpl.
    + rewrite E. reflexivity.
    + rewrite E. apply IH, Hin.
Qed.

Lemma status_of_set_status_other n m st rows :
  m <> n -> status_of m (set_status n st rows) = status_of m rows.
Proof.
  intros Hne. unfold status_of. induction rows as [|r rows IH]; simpl; [reflexivity|].
  destruct (String.eqb (name r) n) eqn:E; simpl.
  - apply String.eqb_eq in E.
    destruct (String.eqb (name r) m) eqn:E'.
    + apply String.eqb_eq in E'. congruence.
    + apply IH.
  - destruct (String.eqb (name r) m); [reflexivity | apply IH].
Qed.

Lemma status_of_in n rows st :
  status_of n rows = Some st -> In n (map name rows).
Proof.
  unfold status_of. induction rows as [|r rows IH]; simpl; [discriminate|].
  destruct (String.eqb (name r) n) eqn:E.
  - apply String.eqb_eq in E. auto.
  - auto.
Qed.

(** With [name] a key, the row found under a name is the row itself. *)
Lemma status_of_row r rows :
  NoDup (map name rows) -> In r rows -> status_of (name r) rows = Some (status r).
Proof.
  unfold status_of. induction rows as [|r' rows IH]; simpl; [tauto|].
  intros Hnd [-> | Hin].
  - rewrite String.eqb_refl. reflexivity.
  - inversion Hnd as [|? ? Hnotin Hnd']; subst.
    destruct (String.eqb (name r') (name r)) eqn:E.
    + apply String.eqb_eq in E. exfalso. apply Hnotin. rewrite E.
      apply in_map, Hin.
    + apply IH; assumption.
Qed.

Lemma set_status_nth_other n st rows i r :
  nth_error rows i = Some r -> name r <> n ->
  nth_error (set_status n st rows) i = Some r.
Proof.
  intros Hnth Hne. unfold set_status.
  rewrite nth_error_map, Hnth. simpl.
  apply String.eqb_neq in Hne. rewrite Hne. reflexivity.
Qed.

Lemma set_status_comm n1 s1 n2 s2 rows :
  n1 <> n2 ->
  set_status n1 s1 (set_status n2 s2 rows) = set_status n2 s2 (set_status n1 s1 rows).
Proof.
  intros Hne. unfold set_status. rewrite !map_map. apply map_ext. intros r.
  destruct (String.eqb (name r) n2) eqn:E2, (String.eqb (name r) n1) eqn:E1;
    simpl; rewrite ?E1, ?E2; try reflexivity.
  apply String.eqb_eq in E1, E2. congruence.
Qed.

Lemma checkin_matches_iff emp t c :
  checkin_matches emp t c = true <-> employee c = emp /\ time c = t.
Proof.
  unfold checkin_matches. rewrite andb_true_iff, String.eqb_eq, Z.eqb_eq. tauto.
Qed.

Lemma has_checkin_app emp t cs cs' :
  has_checkin emp t (cs ++ cs') = has_checkin emp t cs || has_checkin emp t cs'.
Proof. apply existsb_app. Qed.

Lemma has_checkin_count emp t cs :
  has_checkin emp t cs = true <-> 0 < count_checkins emp t cs.
Proof.
  unfold has_checkin, count_checkins.
  induction cs as [|c cs IH]; simpl.
  - split; [discriminate | lia].
  - destruct (checkin_matches emp t c); simpl; [split; [lia | reflexivity] | exact IH].
Qed.

Lemma has_checkin_false_count emp t cs :
  has_checkin emp t cs = false -> count_checkins emp t cs = 0.
Proof.
  intros H. destruct (count_checkins emp t cs) eqn:E; [reflexivity|].
  assert (H' : has_checkin emp t cs = true) by (apply has_checkin_count; lia).
  congruence.
Qed.

Lemma count_checkins_app emp t cs cs' :
  count_checkins emp t (cs ++ cs') = count_checkins emp t cs + count_checkins emp t cs'.
Proof. unfold count_checkins. rewrite filter_app, length_app. reflexivity. Qed.

Lemma has_checkin_perm emp t cs cs' :
  Permutation cs cs' -> has_checkin emp t cs = has_checkin emp t cs'.
Proof.
  intros HP. induction HP; simpl.
  - reflexivity.
  - rewrite IHHP. reflexivity.
  - destruct (checkin_matches emp t x), (checkin_matches emp t y); reflexivity.
  - congruence.
Qed.

Lemma NoDup_app_disjoint {A : Type} (l1 l2 : list A) a :
  NoDup (l1 ++ l2) -> In a l1 -> ~ In a l2.
Proof.
  induction l1 as [|x l1 IH]; simpl; [tauto|].
  intros Hnd [-> | Hin] H2; inversion Hnd as [|? ? Hnotin Hnd']; subst.
  - apply Hnotin, in_or_app. right. exact H2.
  - exact (IH Hnd' Hin H2).
Qed.

Lemma pending_logs_names rows :
  map log_name (pending_logs rows) = map name (filter is_pending rows).
Proof. unfold pending_logs. rewrite map_map. reflexivity. Qed.

Lemma NoDup_filter_names (f : Staging -> bool) rows :
  NoDup (map name rows) -> NoDup (map name (filter f rows)).
Proof.
  induction rows as [|r rows IH]; simpl; [auto|].
  intros Hnd. inversion Hnd as [|? ? Hnotin Hnd']; subst.
  destruct (f r); simpl; [|auto].
  constructor; [|auto].
  intros Hin. apply Hnotin. apply in_map_iff in Hin as [x [Hx Hin]].
  apply filter_In in Hin as [Hin _]. rewrite <- Hx. apply in_map, Hin.
Qed.

Lemma pending_logs_NoDup rows :
  NoDup (map name rows) -> NoDup (map log_name (pending_logs rows)).
Proof. intros H. rewrite pending_logs_names. apply NoDup_filter_names, H. Qed.

(** A pending log comes from a row that is Pending under the log's name. *)
Lemma pending_log_status rows log :
  NoDup (map name rows) -> In log (pending_logs rows) ->
  status_of (log_name log) rows = Some Pending.
Proof.
  intros Hnd Hin. unfold pending_logs in Hin.
  apply in_map_iff in Hin as [r [<- Hr]].
  apply filter_In in Hr as [Hr Hp].
  unfold is_pending in Hp. apply Status_eqb_eq in Hp.
  simpl. rewrite (status_of_row r rows Hnd Hr). congruence.
Qed.

(** A row that is not Pending has a name no pending log carries. *)
Lemma settled_row_not_pending rows r :
  NoDup (map name rows) -> In r rows -> status r <> Pending ->
  ~ In (name r) (map log_name (pending_logs rows)).
Proof.
  intros Hnd Hr Hst Hin.
  apply in_map_iff in Hin as [log [Hname Hlog]].
  pose proof (pending_log_status rows log Hnd Hlog) as Hp.
  rewrite Hname, (status_of_row r rows Hnd Hr) in Hp. congruence.
Qed.

(** ** One iteration of the loop, under any oracle *)

Section Reconciliation.

Variable raises : Op -> World -> option string.

Ltac oracle :=
  repeat match goal with
         | |- context [raises ?op ?w] => destruct (raises op w) eqn:?; simpl
         end.

Lemma process_log_body_spec log w :
  body_result log w (fst (process_log_body raises log w))
              (snd (process_log_body raises log w)).
Proof.
  unfold process_log_body, bind, get_value_employee, db_exists_checkin,
    insert_checkin, db_set_value_status, call.
  oracle; [apply body_raised|].
  destruct (lookup_employee (log_attendance_device_id log) (employees w))
    as [e|] eqn:Hemp.
  - destruct (truthy (Some e)) eqn:Ht.
    + oracle; [apply body_raised|].
      destruct (has_checkin e (log_timestamp log) (checkins w)) eqn:Hdup.
      * oracle; [apply body_raised|]. eapply body_duplicate; eassumption.
      * oracle.
        -- apply body_raised.
        -- eapply body_raised_after_insert; eassumption.
        -- eapply body_processed; eassumption.
    + oracle; [apply body_raised|]. apply body_ignored. rewrite Hemp. exact Ht.
  - oracle; [apply body_raised|]. apply body_ignored. rewrite Hemp. reflexivity.
Qed.

Lemma process_log_ok log w : fst (process_log raises log w) = Ok tt.
Proof.
  unfold process_log, try_except.
  destruct (process_log_body raises log w) as [[[]|e] w']; reflexivity.
Qed.

Lemma step_ok log w :
  fst (process_log_body raises log w) = Ok tt ->
  step raises log w = snd (process_log_body raises log w).
Proof.
  unfold step, process_log, try_except.
  destruct (process_log_body raises log w) as [[[]|e] w']; simpl;
    [reflexivity | discriminate].
Qed.

Lemma step_raise log w e :
  fst (process_log_body raises log w) = Raise e ->
  step raises log w =
  apply_log_error (failure_message log e) error_title
                  (snd (process_log_body raises log w)).
Proof.
  unfold step, process_log, try_except, log_error.
  destruct (process_log_body raises log w) as [[[]|e'] w']; simpl;
    [discriminate | intros [= ->]; reflexivity].
Qed.

Lemma process_logs_run logs w :
  process_logs raises logs w = (Ok tt, run raises logs w).
Proof.
  revert w. induction logs as [|log logs IH]; intros w; simpl; [reflexivity|].
  unfold process_logs in *. simpl. unfold bind at 1.
  pose proof (process_log_ok log w) as Hok. unfold step.
  destruct (process_log raises log w) as [[[]|e] w']; simpl in *;
    [apply IH | discriminate].
Qed.

Lemma run_app logs logs' w :
  run raises (logs ++ logs') w = run raises logs' (run raises logs w).
Proof. apply fold_left_app. Qed.

Lemma run_cons log logs w :
  run raises (log :: logs) w = run raises logs (step raises log w).
Proof. reflexivity. Qed.

(** The iteration seen from outside the [try]: either the body returned and
    the store is the one it left, or it raised and one entry was logged. *)
Lemma step_cases log w :
  (exists w', body_result log w (Ok tt) w'
              /\ fst (process_log_body raises log w) = Ok tt
              /\ step raises log w = w')
  \/ (exists e w', body_result log w (Raise e) w'
                   /\ fst (process_log_body raises log w) = Raise e
                   /\ step raises log w =
                      apply_log_error (failure_message log e) error_title w').
Proof.
  pose proof (process_log_body_spec log w) as Hb.
  destruct (fst (process_log_body raises log w)) as [[]|e] eqn:Hr.
  - left. eexists. split; [exact Hb|]. split; [reflexivity|].
    apply step_ok, Hr.
  - right. do 2 eexists. split; [exact Hb|]. split; [reflexivity|].
    apply step_raise, Hr.
Qed.

Lemma step_effect_holds log w : step_effect log w (step raises log w).
Proof.
  destruct (step_cases log w) as [[w' [Hb [_ ->]]] | [e [w' [Hb [_ ->]]]]];
    inversion Hb; subst.
  - eapply effect_status with (st := Ignored); try reflexivity; discriminate.
  - eapply effect_status with (st := Duplicate); try reflexivity; discriminate.
  - eapply effect_processed; [eassumption | reflexivity | reflexivity |].
    autorewrite with world. rewrite <- app_assoc. reflexivity.
  - apply effect_none; reflexivity.
  - eapply effect_insert; [eassumption | reflexivity ..].
Qed.

Lemma step_employees log w : employees (step raises log w) = employees w.
Proof.
  destruct (step_cases log w) as [[w' [Hb [_ ->]]] | [e [w' [Hb [_ ->]]]]];
    inversion Hb; reflexivity.
Qed.

Lemma run_employees logs w : employees (run raises logs w) = employees w.
Proof.
  revert w. induction logs as [|log logs IH]; intros w; [reflexivity|].
  rewrite run_cons, IH. apply step_employees.
Qed.

(** ** The loop, under any oracle *)

Lemma step_status_other log w n :
  n <> log_name log ->
  status_of n (staging (step raises log w)) = status_of n (staging w).
Proof.
  intros Hne. destruct (step_effect_holds log w) as [Hs _ _|st _ _ Hs _ _|e _ Hs _ _|e _ Hs _ _];
    rewrite Hs; try reflexivity; apply status_of_set_status_other; exact Hne.
Qed.

Lemma run_status_other logs w n :
  ~ In n (map log_name logs) ->
  status_of n (staging (run raises logs w)) = status_of n (staging w).
Proof.
  revert w. induction logs as [|log logs IH]; intros w Hn; [reflexivity|].
  simpl in Hn. rewrite run_cons, IH by tauto.
  apply step_status_other. intros ->. tauto.
Qed.

Lemma step_names log w :
  map name (staging (step raises log w)) = map name (staging w).
Proof.
  destruct (step_effect_holds log w) as [Hs _ _|st _ _ Hs _ _|e _ Hs _ _|e _ Hs _ _];
    rewrite Hs; try reflexivity; apply set_status_names.
Qed.

Lemma run_names logs w :
  map name (staging (run raises logs w)) = map name (staging w).
Proof.
  revert w. induction logs as [|log logs IH]; intros w; [reflexivity|].
  rewrite run_cons, IH. apply step_names.
Qed.

Lemma step_nth_other log w i r :
  nth_error (staging w) i = Some r -> name r <> log_name log ->
  nth_error (staging (step raises log w)) i = Some r.
Proof.
  intros Hnth Hne.
  destruct (step_effect_holds log w) as [Hs _ _|st _ _ Hs _ _|e _ Hs _ _|e _ Hs _ _];
    rewrite Hs; try exact Hnth; apply set_status_nth_other; assumption.
Qed.

Lemma run_nth_other logs w i r :
  nth_error (staging w) i = Some r -> ~ In (name r) (map log_name logs) ->
  nth_error (staging (run raises logs w)) i = Some r.
Proof.
  revert w. induction logs as [|log logs IH]; intros w Hnth Hn; [exact Hnth|].
  simpl in Hn. rewrite run_cons. apply IH; [|tauto].
  apply step_nth_other; [exact Hnth | intros E; apply Hn; left; symmetry; exact E].
Qed.

Lemma step_checkins log w :
  exists added, checkins (step raises log w) = checkins w ++ added.
Proof.
  destruct (step_effect_holds log w) as [_ Hc _|st _ _ _ Hc _|e _ _ Hc _|e _ _ Hc _];
    rewrite Hc; eauto using app_nil_r.
  all: exists []; symmetry; apply app_nil_r.
Qed.

Lemma run_checkins logs w :
  exists added, checkins (run raises logs w) = checkins w ++ added.
Proof.
  revert w. induction logs as [|log logs IH]; intros w.
  - exists []. symmetry. apply app_nil_r.
  - rewrite run_cons. destruct (IH (step raises log w)) as [a2 H2].
    destruct (step_checkins log w) as [a1 H1].
    exists (a1 ++ a2). rewrite H2, H1, app_assoc. reflexivity.
Qed.

(** A checkin is only ever added under a key that has none yet. *)
Lemma step_count_stable log w emp t :
  has_checkin emp t (checkins w) = true ->
  count_checkins emp t (checkins (step raises log w)) = count_checkins emp t (checkins w).
Proof.
  intros Hhas.
  destruct (step_effect_holds log w) as [_ Hc _|st _ _ _ Hc _|e Hno _ Hc _|e Hno _ Hc _];
    rewrite Hc; try reflexivity.
  all: rewrite count_checkins_app; unfold count_checkins at 2; simpl.
  all: destruct (checkin_matches emp t (new_checkin e log)) eqn:E; simpl; [|lia].
  all: apply checkin_matches_iff in E as [E1 E2]; simpl in E1, E2; subst; congruence.
Qed.

Lemma run_count_stable logs w emp t :
  has_checkin emp t (checkins w) = true ->
  count_checkins emp t (checkins (run raises logs w)) = count_checkins emp t (checkins w).
Proof.
  revert w. induction logs as [|log logs IH]; intros w Hhas; [reflexivity|].
  rewrite run_cons, IH.
  - apply step_count_stable, Hhas.
  - apply has_checkin_count. rewrite step_count_stable by exact Hhas.
    apply has_checkin_count, Hhas.
Qed.

Lemma step_has_checkin_false log w emp t :
  has_checkin emp t (checkins w) = false ->
  ~ In (emp, t) (dup_keys (employees w) log) ->
  has_checkin emp t (checkins (step raises log w)) = false.
Proof.
  intros Hno Hkey.
  assert (Hnew : forall e,
             lookup_employee (log_attendance_device_id log) (employees w) = Some e ->
             truthy (Some e) = true ->
             has_checkin emp t (checkins w ++ [new_checkin e log]) = false).
  { intros e Hl Ht. rewrite has_checkin_app, Hno. simpl.
    destruct (checkin_matches emp t (new_checkin e log)) eqn:E; [|reflexivity].
    apply checkin_matches_iff in E as [E1 E2]. simpl in E1, E2. subst.
    exfalso. apply Hkey. unfold dup_keys. rewrite Hl, Ht. left. reflexivity. }
  destruct (step_cases log w) as [[w' [Hb [_ ->]]] | [e [w' [Hb [_ ->]]]]];
    inversion Hb; subst; autorewrite with world; auto.
Qed.

(** No checkin at the start of the loop and no log of the same key in
    [logs]: still no checkin after the loop over [logs]. *)
Lemma run_has_checkin_false logs w emp t :
  has_checkin emp t (checkins w) = false ->
  ~ In (emp, t) (flat_map (dup_keys (employees w)) logs) ->
  has_checkin emp t (checkins (run raises logs w)) = false.
Proof.
  revert w. induction logs as [|log logs IH]; intros w Hno Hkey; [exact Hno|].
  simpl in Hkey. rewrite in_app_iff in Hkey.
  rewrite run_cons. apply IH.
  - apply step_has_checkin_false; tauto.
  - rewrite step_employees. tauto.
Qed.

(** ** The whole pass *)

Lemma pass_unfold w0 :
  raises OpGetAllPending w0 = None ->
  process_biometric_logs raises w0 =
  let wr := run raises (pending_logs (staging w0)) w0 in
  match raises OpCommit wr with
  | Some e => (Raise e, wr)
  | None => (Ok PyNone, apply_commit wr)
  end.
Proof.
  intros Hget. unfold process_biometric_logs, bind at 1, get_all_pending, call.
  rewrite Hget. unfold bind at 1. rewrite process_logs_run.
  unfold bind, db_commit, call, ret.
  destruct (raises OpCommit _); reflexivity.
Qed.

Lemma pass_get_all_raises w0 e :
  raises OpGetAllPending w0 = Some e ->
  process_biometric_logs raises w0 = (Raise e, w0).
Proof.
  intros Hget. unfold process_biometric_logs, bind at 1, get_all_pending, call.
  rewrite Hget. reflexivity.
Qed.

Lemma pass_staging w0 :
  raises OpGetAllPending w0 = None ->
  staging (snd (process_biometric_logs raises w0)) =
  staging (run raises (pending_logs (staging w0)) w0).
Proof.
  intros Hget. rewrite (pass_unfold w0 Hget). simpl.
  destruct (raises OpCommit _); reflexivity.
Qed.

Lemma pass_checkins w0 :
  raises OpGetAllPending w0 = None ->
  checkins (snd (process_biometric_logs raises w0)) =
  checkins (run raises (pending_logs (staging w0)) w0).
Proof.
  intros Hget. rewrite (pass_unfold w0 Hget). simpl.
  destruct (raises OpCommit _); reflexivity.
Qed.

(** The status a log has when the loop reaches it, and the one it keeps
    from the end of its own iteration to the end of the pass. *)
Lemma reached_pending w0 pre log post :
  NoDup (map name (staging w0)) ->
  pending_logs (staging w0) = pre ++ log :: post ->
  status_of (log_name log) (staging (run raises pre w0)) = Some Pending
  /\ ~ In (log_name log) (map log_name post).
Proof.
  intros Hnd Hsplit.
  pose proof (pending_logs_NoDup _ Hnd) as Hnames.
  rewrite Hsplit, map_app in Hnames. simpl in Hnames.
  pose proof (NoDup_remove_2 _ _ _ Hnames) as Hnotin.
  rewrite in_app_iff in Hnotin. split; [|tauto].
  rewrite run_status_other by tauto.
  apply pending_log_status; [exact Hnd|].
  rewrite Hsplit. apply in_elt.
Qed.

Lemma final_status w0 pre log post :
  NoDup (map name (staging w0)) ->
  raises OpGetAllPending w0 = None ->
  pending_logs (staging w0) = pre ++ log :: post ->
  status_of (log_name log) (staging (snd (process_biometric_logs raises w0))) =
  status_of (log_name log) (staging (step raises log (run raises pre w0))).
Proof.
  intros Hnd Hget Hsplit.
  destruct (reached_pending w0 pre log post Hnd Hsplit) as [_ Hpost].
  rewrite (pass_staging w0 Hget), Hsplit, run_app, run_cons.
  apply run_status_other, Hpost.
Qed.

Lemma final_checkins w0 pre log post :
  raises OpGetAllPending w0 = None ->
  pending_logs (staging w0) = pre ++ log :: post ->
  checkins (snd (process_biometric_logs raises w0)) =
  checkins (run raises post (step raises log (run raises pre w0))).
Proof.
  intros Hget Hsplit.
  rewrite (pass_checkins w0 Hget), Hsplit, run_app, run_cons. reflexivity.
Qed.

(** ** Outcomes of a pending log *)

(** C1.  A pending staged record that resolves to an employee [e] and has no
    checkin for ([e], its timestamp) when the loop reaches it, and whose
    processing runs without a failure: its iteration appends exactly the
    checkin (employee = [e], time = timestamp, log_type = punch_type,
    device_id = device_id) and sets the record to Processed; at the end of
    the pass the record is still Processed and the store holds exactly one
    checkin for ([e], timestamp), that one. *)
Theorem pending_resolved_fresh_is_processed
    (w0 : World) (pre post : list Log) (log : Log) (e : string) :
  NoDup (map name (staging w0)) ->
  raises OpGetAllPending w0 = None ->
  pending_logs (staging w0) = pre ++ log :: post ->
  lookup_employee (log_attendance_device_id log) (employees w0) = Some e ->
  e <> EmptyString ->
  has_checkin e (log_timestamp log) (checkins (run raises pre w0)) = false ->
  fst (process_log_body raises log (run raises pre w0)) = Ok tt ->
  let c := mkCheckin e (log_timestamp log) (log_punch_type log) (log_device_id log) in
  let w1 := run raises pre w0 in
  let w2 := step raises log w1 in
  let wf := snd (process_biometric_logs raises w0) in
  checkins w2 = checkins w1 ++ [c]
  /\ status_of (log_name log) (staging w2) = Some Processed
  /\ status_of (log_name log) (staging wf) = Some Processed
  /\ In c (checkins wf)
  /\ count_checkins e (log_timestamp log) (checkins wf) = 1.
Proof.
  intros Hnd Hget Hsplit Hemp Hne Hfresh Hok c w1 w2 wf.
  destruct (reached_pending w0 pre log post Hnd Hsplit) as [Hpend Hpost].
  assert (Hin : In (log_name log) (map name (staging w1)))
    by (eapply status_of_in; exact Hpend).
  assert (Hw2 : w2 = apply_set_status (log_name log) Processed
                       (apply_insert_checkin c w1)).
  { subst w2. destruct (step_cases log w1) as [[w' [Hb [_ ->]]] | [m [w' [_ [Hr _]]]]].
    - subst w1.
      inversion Hb as [Hf|e' He' _ Hd|e' He' _ _| |]; subst.
      + rewrite run_employees, Hemp in Hf. simpl in Hf.
        apply negb_false_iff, String.eqb_eq in Hf. contradiction.
      + rewrite run_employees in He'. congruence.
      + rewrite run_employees in He'. replace e' with e by congruence. reflexivity.
    - subst w1. congruence. }
  assert (Hc2 : checkins w2 = checkins w1 ++ [c]) by (rewrite Hw2; reflexivity).
  assert (Hs2 : status_of (log_name log) (staging w2) = Some Processed).
  { rewrite Hw2. autorewrite with world. apply status_of_set_status_same, Hin. }
  assert (Hcount2 : count_checkins e (log_timestamp log) (checkins w2) = 1).
  { pose proof (has_checkin_false_count _ _ _ Hfresh) as Hzero. fold w1 in Hzero.
    rewrite Hc2, count_checkins_app, Hzero.
    unfold count_checkins, checkin_matches. simpl.
    rewrite String.eqb_refl, Z.eqb_refl. reflexivity. }
  assert (Hcf : checkins wf = checkins (run raises post w2))
    by (apply final_checkins; assumption).
  repeat split.
  - exact Hc2.
  - exact Hs2.
  - subst wf. rewrite (final_status w0 pre log post Hnd Hget Hsplit). exact Hs2.
  - rewrite Hcf. destruct (run_checkins post w2) as [added ->].
    rewrite Hc2. apply in_or_app. left. apply in_or_app. right. left. reflexivity.
  - rewrite Hcf, run_count_stable; [exact Hcount2|].
    apply has_checkin_count. lia.
Qed.

(** C2.  A pending staged record whose employee [e] already has a checkin at
    the record's timestamp when the loop reaches it: its iteration adds no
    checkin and never leaves the record Processed, whatever fails; when its
    processing runs without a failure the record is Duplicate after its
    iteration and at the end of the pass. *)
Theorem pending_with_checkin_is_duplicate
    (w0 : World) (pre post : list Log) (log : Log) (e : string) :
  NoDup (map name (staging w0)) ->
  raises OpGetAllPending w0 = None ->
  pending_logs (staging w0) = pre ++ log :: post ->
  lookup_employee (log_attendance_device_id log) (employees w0) = Some e ->
  e <> EmptyString ->
  has_checkin e (log_timestamp log) (checkins (run raises pre w0)) = true ->
  let w1 := run raises pre w0 in
  let w2 := step raises log w1 in
  let wf := snd (process_biometric_logs raises w0) in
  checkins w2 = checkins w1
  /\ status_of (log_name log) (staging w2) <> Some Processed
  /\ status_of (log_name log) (staging wf) <> Some Processed
  /\ (fst (process_log_body raises log w1) = Ok tt ->
      status_of (log_name log) (staging w2) = Some Duplicate
      /\ status_of (log_name log) (staging wf) = Some Duplicate).
Proof.
  intros Hnd Hget Hsplit Hemp Hne Hdup w1 w2 wf.
  destruct (reached_pending w0 pre log post Hnd Hsplit) as [Hpend Hpost].
  assert (Hin : In (log_name log) (map name (staging w1)))
    by (eapply status_of_in; exact Hpend).
  assert (Hf : status_of (log_name log) (staging wf)
               = status_of (log_name log) (staging w2))
    by (apply (final_status w0 pre log post); assumption).
  assert (Hcases :
    (fst (process_log_body raises log w1) = Ok tt
     /\ w2 = apply_set_status (log_name log) Duplicate w1)
    \/ (exists m, fst (process_log_body raises log w1) = Raise m
                  /\ w2 = apply_log_error (failure_message log m) error_title w1)).
  { subst w2. destruct (step_cases log w1) as [[w' [Hb [Hr ->]]] | [m [w' [Hb [Hr ->]]]]].
    - left. split; [exact Hr|]. subst w1.
      inversion Hb as [Ht|e' He' _ Hd|e' He' _ Hd| |]; subst.
      + rewrite run_employees, Hemp in Ht. simpl in Ht.
        apply negb_false_iff, String.eqb_eq in Ht. contradiction.
      + reflexivity.
      + rewrite run_employees in He'. replace e' with e in Hd by congruence.
        congruence.
    - right. exists m. split; [exact Hr|]. subst w1.
      inversion Hb as [| | | |e' m' He' _ Hd]; subst.
      + reflexivity.
      + rewrite run_employees in He'. replace e' with e in Hd by congruence.
        congruence. }
  destruct Hcases as [[Hr Hw2] | [m [Hr Hw2]]].
  - assert (Hs2 : status_of (log_name log) (staging w2) = Some Duplicate).
    { rewrite Hw2. autorewrite with world. apply status_of_set_status_same, Hin. }
    repeat split.
    + rewrite Hw2. reflexivity.
    + rewrite Hs2. discriminate.
    + rewrite Hf, Hs2. discriminate.
    + exact Hs2.
    + rewrite Hf. exact Hs2.
  - assert (Hs2 : status_of (log_name log) (staging w2) = Some Pending).
    { rewrite Hw2. autorewrite with world. exact Hpend. }
    repeat split.
    + rewrite Hw2. reflexivity.
    + rewrite Hs2. discriminate.
    + rewrite Hf, Hs2. discriminate.
    + congruence.
    + congruence.
Qed.

(** C3.  A pending staged record whose attendance_device_id matches no
    employee: its iteration creates no checkin, whatever fails; when its
    processing runs without a failure the record is Ignored after its
    iteration and at the end of the pass, and the pass has created no
    checkin on its behalf. *)
Theorem pending_unmatched_is_ignored
    (w0 : World) (pre post : list Log) (log : Log) :
  NoDup (map name (staging w0)) ->
  raises OpGetAllPending w0 = None ->
  pending_logs (staging w0) = pre ++ log :: post ->
  lookup_employee (log_attendance_device_id log) (employees w0) = None ->
  let w1 := run raises pre w0 in
  let w2 := step raises log w1 in
  let wf := snd (process_biometric_logs raises w0) in
  checkins w2 = checkins w1
  /\ (fst (process_log_body raises log w1) = Ok tt ->
      w2 = apply_set_status (log_name log) Ignored w1
      /\ status_of (log_name log) (staging w2) = Some Ignored
      /\ status_of (log_name log) (staging wf) = Some Ignored).
Proof.
  intros Hnd Hget Hsplit Hemp w1 w2 wf.
  destruct (reached_pending w0 pre log post Hnd Hsplit) as [Hpend Hpost].
  assert (Hin : In (log_name log) (map name (staging w1)))
    by (eapply status_of_in; exact Hpend).
  assert (Hf : status_of (log_name log) (staging wf)
               = status_of (log_name log) (staging w2))
    by (apply (final_status w0 pre log post); assumption).
  assert (Hcases :
    (fst (process_log_body raises log w1) = Ok tt
     /\ w2 = apply_set_status (log_name log) Ignored w1)
    \/ (exists m, fst (process_log_body raises log w1) = Raise m
                  /\ w2 = apply_log_error (failure_message log m) error_title w1)).
  { subst w2. destruct (step_cases log w1) as [[w' [Hb [Hr ->]]] | [m [w' [Hb [Hr ->]]]]].
    - left. split; [exact Hr|]. subst w1.
      inversion Hb as [Ht|e' He' _ Hd|e' He' _ Hd| |]; subst;
        try (rewrite run_employees in He'; congruence).
      reflexivity.
    - right. exists m. split; [exact Hr|]. subst w1.
      inversion Hb as [| | | |e' m' He' _ Hd]; subst;
        try (rewrite run_employees in He'; congruence).
      reflexivity. }
  destruct Hcases as [[Hr Hw2] | [m [Hr Hw2]]].
  - assert (Hs2 : status_of (log_name log) (staging w2) = Some Ignored).
    { rewrite Hw2. autorewrite with world. apply status_of_set_status_same, Hin. }
    split; [rewrite Hw2; reflexivity|]. intros _.
    repeat split; [exact Hw2 | exact Hs2 | rewrite Hf; exact Hs2].
  - split; [rewrite Hw2; reflexivity|]. congruence.
Qed.

(** ** Failures *)

Lemma raised_body_frame log w m w' :
  body_result log w (Raise m) w' ->
  staging w' = staging w /\ error_log w' = error_log w.
Proof. intros Hb. inversion Hb; subst; split; reflexivity. Qed.

(** C6.  When the processing of a pending record raises, the loop catches
    the exception and appends one entry naming the record to the error log,
    the staging table is as before the iteration (the record is still
    Pending, also at the end of the pass), the loop goes on with the
    remaining records, and no exception leaves the loop; the pass returns
    normally unless the final commit itself raises. *)
Theorem failure_is_isolated
    (w0 : World) (pre post : list Log) (log : Log) (m : string) :
  NoDup (map name (staging w0)) ->
  raises OpGetAllPending w0 = None ->
  pending_logs (staging w0) = pre ++ log :: post ->
  fst (process_log_body raises log (run raises pre w0)) = Raise m ->
  let w1 := run raises pre w0 in
  let w2 := step raises log w1 in
  let wf := snd (process_biometric_logs raises w0) in
  error_log w2 =
    error_log w1 ++ [("Failed to process log " +++ log_name log +++ ": " +++ m,
                      "Biometric Log Processing Error")]
  /\ staging w2 = staging w1
  /\ status_of (log_name log) (staging w2) = Some Pending
  /\ process_logs raises (pre ++ log :: post) w0 = process_logs raises post w2
  /\ fst (process_logs raises (pre ++ log :: post) w0) = Ok tt
  /\ status_of (log_name log) (staging wf) = Some Pending
  /\ (raises OpCommit (run raises (pending_logs (staging w0)) w0) = None ->
      fst (process_biometric_logs raises w0) = Ok PyNone).
Proof.
  intros Hnd Hget Hsplit Hraise w1 w2 wf.
  destruct (reached_pending w0 pre log post Hnd Hsplit) as [Hpend Hpost].
  assert (Hw2 : exists w', body_result log w1 (Raise m) w'
                  /\ w2 = apply_log_error (failure_message log m) error_title w').
  { subst w2. destruct (step_cases log w1) as [[w' [_ [Hr _]]] | [m' [w' [Hb [Hr Hw]]]]];
      subst w1; [congruence|].
    replace m' with m in * by congruence. eauto. }
  destruct Hw2 as [w' [Hb Hw2]].
  destruct (raised_body_frame log w1 m w' Hb) as [Hst Herr].
  assert (Hs2 : staging w2 = staging w1) by (rewrite Hw2; exact Hst).
  assert (Hp2 : status_of (log_name log) (staging w2) = Some Pending)
    by (rewrite Hs2; exact Hpend).
  repeat split.
  - rewrite Hw2. autorewrite with world. rewrite Herr. reflexivity.
  - exact Hs2.
  - exact Hp2.
  - rewrite !process_logs_run, run_app, run_cons. reflexivity.
  - rewrite process_logs_run. reflexivity.
  - subst wf. rewrite (final_status w0 pre log post Hnd Hget Hsplit). exact Hp2.
  - intros Hcommit. rewrite (pass_unfold w0 Hget). simpl. rewrite Hcommit.
    reflexivity.
Qed.

(** ** Frame: what a pass leaves alone *)

Lemma status_writes_app n j j' :
  status_writes n (j ++ j') = status_writes n j + status_writes n j'.
Proof. unfold status_writes. rewrite filter_app, length_app. reflexivity. Qed.

Lemma status_writes_set_same n st : status_writes n [OpSetStatus n st] = 1.
Proof. unfold status_writes. simpl. rewrite String.eqb_refl. reflexivity. Qed.

Lemma status_writes_set_other n m st :
  m <> n -> status_writes n [OpSetStatus m st] = 0.
Proof.
  intros H. unfold status_writes. simpl.
  apply String.eqb_neq in H. rewrite H. reflexivity.
Qed.

(** The journal of one iteration: at most one status write, on the log's
    own document, and exactly one when the status is no longer Pending. *)
Lemma step_journal log w :
  status_of (log_name log) (staging w) = Some Pending ->
  exists ops,
    journal (step raises log w) = journal w ++ ops
    /\ ~ In OpCommit ops
    /\ (forall n, n <> log_name log -> status_writes n ops = 0)
    /\ ((staging (step raises log w) = staging w
         /\ status_writes (log_name log) ops = 0)
        \/ (status_of (log_name log) (staging (step raises log w)) <> Some Pending
            /\ status_writes (log_name log) ops = 1)).
Proof.
  intros Hpend.
  assert (Hin : In (log_name log) (map name (staging w)))
    by (eapply status_of_in; exact Hpend).
  destruct (step_effect_holds log w)
    as [Hs _ Hj|st Hst _ Hs _ Hj|e _ Hs _ Hj|e _ Hs _ Hj].
  - exists []. rewrite Hj, app_nil_r. repeat split; auto.
  - exists [OpSetStatus (log_name log) st]. rewrite Hj. repeat split.
    + simpl. intros [H|[]]. discriminate.
    + intros n Hn. apply status_writes_set_other. congruence.
    + right. rewrite Hs, status_of_set_status_same by exact Hin.
      split; [congruence | apply status_writes_set_same].
  - exists [OpInsertCheckin (new_checkin e log)]. rewrite Hj. repeat split; auto.
    simpl. intros [H|[]]. discriminate.
  - exists [OpInsertCheckin (new_checkin e log); OpSetStatus (log_name log) Processed].
    rewrite Hj. repeat split.
    + simpl. intros [H|[H|[]]]; discriminate.
    + intros n Hn. unfold status_writes. simpl.
      assert (E : String.eqb (log_name log) n = false) by (apply String.eqb_neq; congruence).
      rewrite E. reflexivity.
    + right. rewrite Hs, status_of_set_status_same by exact Hin.
      split; [discriminate|]. unfold status_writes. simpl.
      rewrite String.eqb_refl. reflexivity.
Qed.

Lemma run_journal logs w :
  NoDup (map log_name logs) ->
  (forall l, In l logs -> status_of (log_name l) (staging w) = Some Pending) ->
  exists ops,
    journal (run raises logs w) = journal w ++ ops
    /\ ~ In OpCommit ops
    /\ forall n,
         (status_of n (staging (run raises logs w)) = status_of n (staging w)
          /\ status_writes n ops = 0)
         \/ (In n (map log_name logs)
             /\ status_of n (staging (run raises logs w)) <> Some Pending
             /\ status_writes n ops = 1).
Proof.
  revert w. induction logs as [|l rest IH]; intros w Hnd Hpend.
  - exists []. rewrite app_nil_r. repeat split; auto.
  - simpl in Hnd. inversion Hnd as [|? ? Hnotin Hnd']; subst.
    destruct (step_journal l w (Hpend l (or_introl eq_refl)))
      as [ops1 [Hj1 [Hc1 [Hother Hown]]]].
    assert (Hpend' : forall l', In l' rest ->
              status_of (log_name l') (staging (step raises l w)) = Some Pending).
    { intros l' Hl'. rewrite step_status_other.
      - apply Hpend. right. exact Hl'.
      - intros E. apply Hnotin. rewrite <- E. apply in_map, Hl'. }
    destruct (IH (step raises l w) Hnd' Hpend') as [ops2 [Hj2 [Hc2 Hall]]].
    exists (ops1 ++ ops2). rewrite run_cons, Hj2, Hj1, app_assoc.
    split; [reflexivity|]. split.
    { rewrite in_app_iff. tauto. }
    intros n. rewrite status_writes_app.
    destruct (string_dec n (log_name l)) as [-> | Hne].
    + destruct (Hall (log_name l)) as [[Hs2 Hw2] | [Hin2 _]]; [|contradiction].
      destruct Hown as [[Hs1 Hw1] | [Hs1 Hw1]].
      * left. rewrite Hs2, Hs1, Hw1, Hw2. auto.
      * right. rewrite Hs2, Hw1, Hw2. simpl. auto.
    + rewrite (Hother n Hne). simpl.
      destruct (Hall n) as [[Hs2 Hw2] | [Hin2 [Hs2 Hw2]]].
      * left. rewrite Hs2, step_status_other by exact Hne. auto.
      * right. simpl. auto.
Qed.

(** A record whose body returns has had its status written, last in its
    iteration, with the status it then carries. *)
Lemma step_ok_write log w :
  In (log_name log) (map name (staging w)) ->
  fst (process_log_body raises log w) = Ok tt ->
  exists st j,
    st <> Pending
    /\ journal (step raises log w) = journal w ++ j ++ [OpSetStatus (log_name log) st]
    /\ status_of (log_name log) (staging (step raises log w)) = Some st.
Proof.
  intros Hin Hok.
  destruct (step_cases log w) as [[w' [Hb [_ ->]]] | [e [w' [_ [Hr _]]]]];
    [|congruence].
  inversion Hb as [Ht|e He Ht Hd|e He Ht Hd| |]; subst.
  - exists Ignored, []. split; [discriminate|]. split; [reflexivity|].
    autorewrite with world. apply status_of_set_status_same, Hin.
  - exists Duplicate, []. split; [discriminate|]. split; [reflexivity|].
    autorewrite with world. apply status_of_set_status_same, Hin.
  - exists Processed, [OpInsertCheckin (new_checkin e log)].
    split; [discriminate|]. split.
    + autorewrite with world. rewrite <- app_assoc. reflexivity.
    + autorewrite with world. apply status_of_set_status_same, Hin.
Qed.

Lemma run_journal_extends logs w :
  exists ops, journal (run raises logs w) = journal w ++ ops.
Proof.
  revert w. induction logs as [|log logs IH]; intros w.
  - exists []. symmetry. apply app_nil_r.
  - rewrite run_cons. destruct (IH (step raises log w)) as [o2 H2].
    assert (H1 : exists o1, journal (step raises log w) = journal w ++ o1).
    { destruct (step_effect_holds log w) as [_ _ Hj|st _ _ _ _ Hj|e _ _ _ Hj|e _ _ _ Hj];
        rewrite Hj; eauto. exists []. symmetry. apply app_nil_r. }
    destruct H1 as [o1 H1]. exists (o1 ++ o2). rewrite H2, H1, app_assoc. reflexivity.
Qed.

(** A pending record processed without a failure: the journal of the loop
    holds the write of its status, and that status is the one it has when
    the loop ends. *)
Lemma processed_record_is_written w0 pre log post :
  NoDup (map name (staging w0)) ->
  pending_logs (staging w0) = pre ++ log :: post ->
  fst (process_log_body raises log (run raises pre w0)) = Ok tt ->
  exists st j1 j2,
    st <> Pending
    /\ journal (run raises (pending_logs (staging w0)) w0)
       = journal w0 ++ j1 ++ OpSetStatus (log_name log) st :: j2
    /\ status_of (log_name log) (staging (run raises (pending_logs (staging w0)) w0))
       = Some st.
Proof.
  intros Hnd Hsplit Hok.
  destruct (reached_pending w0 pre log post Hnd Hsplit) as [Hpend Hpost].
  assert (Hin : In (log_name log) (map name (staging (run raises pre w0))))
    by (eapply status_of_in; exact Hpend).
  destruct (step_ok_write log (run raises pre w0) Hin Hok) as [st [j [Hst [Hj Hs]]]].
  destruct (run_journal_extends pre w0) as [a Ha].
  destruct (run_journal_extends post (step raises log (run raises pre w0))) as [b Hb].
  exists st, (a ++ j), b. split; [exact Hst|].
  rewrite Hsplit, run_app, run_cons. split.
  - rewrite Hb, Hj, Ha, <- !app_assoc. reflexivity.
  - rewrite run_status_other by exact Hpost. exact Hs.
Qed.

(** C7.  A pass leaves every staged row that is not Pending at its start
    exactly as it was and only appends to the checkin table.  It writes the
    status of a document at most once, never for a document that was not
    Pending, and exactly once for every record whose status it changes;
    every pending record processed without a failure has its status
    written exactly once, to the non-Pending status it has at the end of
    the pass.  It commits once, as the last write, when it returns. *)
Theorem pass_frame (w0 : World) :
  NoDup (map name (staging w0)) ->
  let wf := snd (process_biometric_logs raises w0) in
  (forall i r, nth_error (staging w0) i = Some r -> status r <> Pending ->
               nth_error (staging wf) i = Some r)
  /\ (exists added, checkins wf = checkins w0 ++ added)
  /\ exists ops,
       journal wf = journal w0 ++ ops
       /\ (forall n,
             (status_of n (staging wf) = status_of n (staging w0)
              /\ status_writes n ops = 0)
             \/ (status_of n (staging w0) = Some Pending
                 /\ status_of n (staging wf) <> Some Pending
                 /\ status_writes n ops = 1))
       /\ (forall pre log post,
             raises OpGetAllPending w0 = None ->
             pending_logs (staging w0) = pre ++ log :: post ->
             fst (process_log_body raises log (run raises pre w0)) = Ok tt ->
             exists st,
               st <> Pending
               /\ In (OpSetStatus (log_name log) st) ops
               /\ status_writes (log_name log) ops = 1
               /\ status_of (log_name log) (staging wf) = Some st)
       /\ match fst (process_biometric_logs raises w0) with
          | Ok _ => exists writes, ops = writes ++ [OpCommit] /\ ~ In OpCommit writes
          | Raise _ => ~ In OpCommit ops
          end.
Proof.
  intros Hnd wf.
  destruct (raises OpGetAllPending w0) as [e|] eqn:Hget.
  - subst wf. rewrite (pass_get_all_raises w0 e Hget). simpl.
    split; [auto|]. split; [exists []; symmetry; apply app_nil_r|].
    exists []. rewrite app_nil_r. split; [reflexivity|]. split; [auto|].
    split; [intros pre log post Hnone; discriminate | auto].
  - set (logs := pending_logs (staging w0)).
    set (wr := run raises logs w0).
    assert (Hst : staging wf = staging wr) by (apply pass_staging, Hget).
    assert (Hck : checkins wf = checkins wr) by (apply pass_checkins, Hget).
    split; [|split].
    + intros i r Hnth Hsettled. rewrite Hst. apply run_nth_other; [exact Hnth|].
      apply settled_row_not_pending; [exact Hnd | | exact Hsettled].
      eapply nth_error_In, Hnth.
    + rewrite Hck. apply run_checkins.
    + assert (Hpend : forall l, In l logs ->
                status_of (log_name l) (staging w0) = Some Pending)
        by (intros l Hl; apply pending_log_status; assumption).
      destruct (run_journal logs w0 (pending_logs_NoDup _ Hnd) Hpend)
        as [ops [Hj [Hnc Hall]]].
      fold wr in Hj.
      assert (Hall' : forall n,
                (status_of n (staging wr) = status_of n (staging w0)
                 /\ status_writes n ops = 0)
                \/ (status_of n (staging w0) = Some Pending
                    /\ status_of n (staging wr) <> Some Pending
                    /\ status_writes n ops = 1)).
      { intros n. destruct (Hall n) as [H | [Hin H]]; [left; exact H|].
        right. split; [|exact H].
        apply in_map_iff in Hin as [l [<- Hl]]. apply Hpend, Hl. }
      assert (Hdone : forall pre log post,
                pending_logs (staging w0) = pre ++ log :: post ->
                fst (process_log_body raises log (run raises pre w0)) = Ok tt ->
                exists st,
                  st <> Pending
                  /\ In (OpSetStatus (log_name log) st) ops
                  /\ status_writes (log_name log) ops = 1
                  /\ status_of (log_name log) (staging wr) = Some st).
      { intros pre log post Hsplit Hok.
        destruct (processed_record_is_written w0 pre log post Hnd Hsplit Hok)
          as [st [j1 [j2 [Hne [Hjr Hsr]]]]].
        fold logs wr in Hjr, Hsr.
        assert (Hops : ops = j1 ++ OpSetStatus (log_name log) st :: j2).
        { apply (app_inv_head (journal w0)). rewrite <- Hj. exact Hjr. }
        exists st. split; [exact Hne|]. split.
        { rewrite Hops. apply in_elt. }
        split; [|exact Hsr].
        destruct (Hall' (log_name log)) as [[Hsame _] | [_ [_ Hone]]]; [|exact Hone].
        exfalso. rewrite Hsr in Hsame.
        assert (Hlog : In log logs) by (subst logs; rewrite Hsplit; apply in_elt).
        rewrite (Hpend log Hlog) in Hsame. congruence. }
      subst wf. rewrite (pass_unfold w0 Hget) in *. fold logs wr in Hst, Hck |- *.
      simpl. destruct (raises OpCommit wr) as [e|]; simpl in *.
      * exists ops. split; [exact Hj|]. split; [exact Hall'|].
        split; [intros pre log post _; apply Hdone | exact Hnc].
      * exists (ops ++ [OpCommit]). split; [|split; [|split]].
        -- unfold apply_commit, with_journal, snoc. simpl. fold wr.
           rewrite Hj, app_assoc. reflexivity.
        -- intros n. rewrite status_writes_app.
           change (status_writes n [OpCommit]) with 0. rewrite Nat.add_0_r.
           apply Hall'.
        -- intros pre log post _ Hsplit Hok.
           destruct (Hdone pre log post Hsplit Hok) as [st [H1 [H2 [H3 H4]]]].
           exists st. split; [exact H1|]. split; [apply in_or_app; left; exact H2|].
           split; [|exact H4].
           rewrite status_writes_app, H3. reflexivity.
        -- exists ops. split; [reflexivity | exact Hnc].
Qed.

(** ** The value returned *)

(** C8, as the code has it.  Whenever [process_biometric_logs] returns, it
    returns None: the function has no return statement, and no count of
    outcomes is handed back. *)
Theorem pass_returns_none (w : World) (v : PyValue) :
  fst (process_biometric_logs raises w) = Ok v -> v = PyNone.
Proof.
  destruct (raises OpGetAllPending w) as [e|] eqn:Hget.
  - rewrite (pass_get_all_raises w e Hget). discriminate.
  - rewrite (pass_unfold w Hget). simpl.
    destruct (raises OpCommit _); simpl; [discriminate | congruence].
Qed.

(** ** A second pass *)

Lemma step_error_log log w :
  exists more,
    error_log (step raises log w) = error_log w ++ more
    /\ (more = [] -> fst (process_log_body raises log w) = Ok tt).
Proof.
  destruct (step_cases log w) as [[w' [Hb [Hr ->]]] | [e [w' [Hb [Hr ->]]]]].
  - exists []. split; [|auto]. rewrite app_nil_r. inversion Hb; reflexivity.
  - destruct (raised_body_frame log w e w' Hb) as [_ Herr].
    eexists. autorewrite with world. rewrite Herr. split; [reflexivity|].
    discriminate.
Qed.

Lemma run_error_log logs w :
  exists more, error_log (run raises logs w) = error_log w ++ more.
Proof.
  revert w. induction logs as [|log logs IH]; intros w.
  - exists []. symmetry. apply app_nil_r.
  - rewrite run_cons. destruct (IH (step raises log w)) as [m2 H2].
    destruct (step_error_log log w) as [m1 [H1 _]].
    exists (m1 ++ m2). rewrite H2, H1, app_assoc. reflexivity.
Qed.

Lemma status_of_set_status_settled m n st rows :
  st <> Pending ->
  status_of m (set_status n st rows) = Some Pending ->
  status_of m rows = Some Pending.
Proof.
  intros Hst H. destruct (string_dec m n) as [-> | Hne].
  - destruct (status_of n rows) as [s|] eqn:E.
    + rewrite status_of_set_status_same in H by (eapply status_of_in; exact E).
      congruence.
    + apply status_of_in in H. rewrite set_status_names in H.
      unfold status_of in E. exfalso.
      apply in_map_iff in H as [r [Hr Hin]].
      destruct (find _ rows) eqn:F; [discriminate|].
      pose proof (find_none _ _ F r Hin) as Hf. simpl in Hf.
      rewrite Hr, String.eqb_refl in Hf. discriminate.
  - rewrite status_of_set_status_other in H by exact Hne. exact H.
Qed.

(** Only Pending rows change, and never back to Pending. *)
Lemma step_settled_stays log w n :
  status_of n (staging (step raises log w)) = Some Pending ->
  status_of n (staging w) = Some Pending.
Proof.
  destruct (step_effect_holds log w) as [Hs _ _|st Hst _ Hs _ _|e _ Hs _ _|e _ Hs _ _];
    rewrite Hs; auto.
  - apply status_of_set_status_settled, Hst.
  - apply status_of_set_status_settled. discriminate.
Qed.

Lemma run_settled_stays logs w n :
  status_of n (staging (run raises logs w)) = Some Pending ->
  status_of n (staging w) = Some Pending.
Proof.
  revert w. induction logs as [|log logs IH]; intros w H; [exact H|].
  rewrite run_cons in H. eapply step_settled_stays, IH, H.
Qed.

Lemma step_ok_settles log w :
  In (log_name log) (map name (staging w)) ->
  fst (process_log_body raises log w) = Ok tt ->
  status_of (log_name log) (staging (step raises log w)) <> Some Pending.
Proof.
  intros Hin Hok.
  destruct (step_cases log w) as [[w' [Hb [_ ->]]] | [e [w' [_ [Hr _]]]]];
    [|congruence].
  inversion Hb; subst; autorewrite with world;
    rewrite status_of_set_status_same by (try rewrite staging_apply_insert_checkin; exact Hin);
    discriminate.
Qed.

(** A loop that logged no failure has settled every log it was given. *)
Lemma run_clean_settles logs w :
  error_log (run raises logs w) = error_log w ->
  (forall l, In l logs -> In (log_name l) (map name (staging w))) ->
  forall l, In l logs ->
            status_of (log_name l) (staging (run raises logs w)) <> Some Pending.
Proof.
  revert w. induction logs as [|log logs IH]; intros w Hclean Hnames l Hl; [destruct Hl|].
  rewrite run_cons in *.
  destruct (step_error_log log w) as [m1 [H1 Hok]].
  destruct (run_error_log logs (step raises log w)) as [m2 H2].
  assert (Hm : m1 = [] /\ m2 = []).
  { rewrite H2, H1, <- app_assoc in Hclean.
    rewrite <- (app_nil_r (error_log w)) in Hclean at 2.
    apply app_inv_head in Hclean. apply app_eq_nil in Hclean. exact Hclean. }
  destruct Hm as [-> ->]. rewrite app_nil_r in H1, H2.
  destruct Hl as [<- | Hl].
  - intros Hp. apply run_settled_stays in Hp.
    revert Hp. apply step_ok_settles; [apply Hnames; left; reflexivity | auto].
  - apply IH; [congruence | | exact Hl].
    intros l' Hl'. rewrite step_names. apply Hnames. right. exact Hl'.
Qed.

Lemma status_of_pending_row n rows :
  status_of n rows = Some Pending ->
  exists r, In r rows /\ name r = n /\ is_pending r = true.
Proof.
  unfold status_of. destruct (find _ rows) as [r|] eqn:F; [|discriminate].
  simpl. intros [= Hst]. apply find_some in F as [Hin Hn].
  apply String.eqb_eq in Hn. exists r. repeat split; auto.
  unfold is_pending. rewrite Hst. reflexivity.
Qed.

Lemma pass_error_log w0 :
  raises OpGetAllPending w0 = None ->
  error_log (snd (process_biometric_logs raises w0)) =
  error_log (run raises (pending_logs (staging w0)) w0).
Proof.
  intros Hget. rewrite (pass_unfold w0 Hget). simpl.
  destruct (raises OpCommit _); reflexivity.
Qed.

(** After a pass that logged no failure nothing is Pending. *)
Lemma clean_pass_leaves_no_pending w0 :
  NoDup (map name (staging w0)) ->
  raises OpGetAllPending w0 = None ->
  error_log (snd (process_biometric_logs raises w0)) = error_log w0 ->
  pending_logs (staging (snd (process_biometric_logs raises w0))) = [].
Proof.
  intros Hnd Hget Hclean.
  rewrite (pass_error_log w0 Hget) in Hclean. rewrite (pass_staging w0 Hget).
  set (logs := pending_logs (staging w0)) in *.
  set (wr := run raises logs w0) in *.
  assert (Hndr : NoDup (map name (staging wr)))
    by (subst wr; rewrite run_names; exact Hnd).
  unfold pending_logs.
  destruct (filter is_pending (staging wr)) as [|r rest] eqn:F; [reflexivity|].
  exfalso.
  assert (Hr : In r (filter is_pending (staging wr))) by (rewrite F; left; reflexivity).
  apply filter_In in Hr as [Hin Hp].
  unfold is_pending in Hp. apply Status_eqb_eq in Hp.
  pose proof (status_of_row r (staging wr) Hndr Hin) as Hsr. rewrite Hp in Hsr.
  pose proof (run_settled_stays logs w0 (name r) Hsr) as Hs0.
  destruct (status_of_pending_row _ _ Hs0) as [r0 [Hin0 [Hn0 Hp0]]].
  assert (Hlog : In (to_log r0) logs).
  { subst logs. unfold pending_logs. apply in_map, filter_In. auto. }
  assert (Hnames : forall l, In l logs -> In (log_name l) (map name (staging w0))).
  { intros l Hl. subst logs. unfold pending_logs in Hl.
    apply in_map_iff in Hl as [x [<- Hx]]. apply filter_In in Hx as [Hx _].
    simpl. apply in_map, Hx. }
  apply (run_clean_settles logs w0 Hclean Hnames (to_log r0) Hlog).
  simpl. rewrite Hn0. exact Hsr.
Qed.

(** C4.  From any store (names being keys), when the first pass read the
    pending set and logged no per-record failure, a second pass right after
    it finds nothing Pending and leaves the checkins and the staged records,
    statuses included, as the first pass left them. *)
Theorem second_pass_changes_nothing (w0 : World) :
  NoDup (map name (staging w0)) ->
  raises OpGetAllPending w0 = None ->
  error_log (snd (process_biometric_logs raises w0)) = error_log w0 ->
  let w1 := snd (process_biometric_logs raises w0) in
  let w2 := snd (process_biometric_logs raises w1) in
  pending_logs (staging w1) = []
  /\ checkins w2 = checkins w1
  /\ staging w2 = staging w1.
Proof.
  intros Hnd Hget Hclean w1 w2.
  assert (Hnone : pending_logs (staging w1) = [])
    by (apply clean_pass_leaves_no_pending; assumption).
  split; [exact Hnone|].
  subst w2. destruct (raises OpGetAllPending w1) as [e|] eqn:Hget1.
  - rewrite (pass_get_all_raises w1 e Hget1). split; reflexivity.
  - rewrite (pass_staging w1 Hget1), (pass_checkins w1 Hget1), Hnone.
    split; reflexivity.
Qed.

End Reconciliation.

(** ** The order of the batch, when no call raises *)

Section Order.

Variable raises : Op -> World -> option string.
Hypothesis quiet : forall op w, raises op w = None.

Lemma body_quiet log w : fst (process_log_body raises log w) = Ok tt.
Proof.
  unfold process_log_body, bind, get_value_employee, db_exists_checkin,
    insert_checkin, db_set_value_status, call.
  rewrite quiet.
  destruct (lookup_employee _ _) as [e|]; [|rewrite quiet; reflexivity].
  destruct (truthy (Some e)); [|rewrite quiet; reflexivity].
  rewrite quiet. destruct (has_checkin _ _ _); rewrite !quiet; reflexivity.
Qed.

Lemma step_quiet log w :
  staging (step raises log w) = set_status (log_name log) (verdict w log) (staging w)
  /\ checkins (step raises log w) = checkins w ++ added_checkins w log.
Proof.
  destruct (step_cases raises log w) as [[w' [Hb [_ ->]]] | [e [w' [_ [Hr _]]]]];
    [|rewrite body_quiet in Hr; discriminate].
  unfold added_checkins, verdict.
  inversion Hb as [Ht|e He Ht Hd|e He Ht Hd| |]; subst; autorewrite with world.
  - destruct (lookup_employee _ _) as [e|]; [rewrite Ht|];
      rewrite app_nil_r; split; reflexivity.
  - rewrite He, Ht, Hd, app_nil_r. split; reflexivity.
  - rewrite He, Ht, Hd. split; reflexivity.
Qed.

Lemma same_tables_refl w : same_tables w w.
Proof. repeat split; auto. Qed.

Lemma same_tables_trans w1 w2 w3 :
  same_tables w1 w2 -> same_tables w2 w3 -> same_tables w1 w3.
Proof.
  intros [H1 [H2 H3]] [H4 [H5 H6]]. repeat split; try congruence.
  eapply perm_trans; eassumption.
Qed.

Lemma verdict_same_tables w w' log :
  same_tables w w' ->
  verdict w log = verdict w' log /\ added_checkins w log = added_checkins w' log.
Proof.
  intros [_ [He Hc]].
  assert (Hv : verdict w log = verdict w' log).
  { unfold verdict. rewrite He.
    destruct (lookup_employee _ _) as [e|]; [|reflexivity].
    rewrite (has_checkin_perm e (log_timestamp log) _ _ Hc). reflexivity. }
  split; [exact Hv|]. unfold added_checkins. rewrite Hv, He. reflexivity.
Qed.

Lemma step_same_tables log w w' :
  same_tables w w' -> same_tables (step raises log w) (step raises log w').
Proof.
  intros Hsame. destruct (verdict_same_tables w w' log Hsame) as [Hv Ha].
  destruct Hsame as [Hs [He Hc]].
  destruct (step_quiet log w) as [Hs1 Hc1], (step_quiet log w') as [Hs2 Hc2].
  repeat split.
  - rewrite Hs1, Hs2, Hs, Hv. reflexivity.
  - rewrite !step_employees. exact He.
  - rewrite Hc1, Hc2, Ha. apply Permutation_app_tail, Hc.
Qed.

Lemma run_same_tables logs w w' :
  same_tables w w' -> same_tables (run raises logs w) (run raises logs w').
Proof.
  revert w w'. induction logs as [|log logs IH]; intros w w' H; [exact H|].
  rewrite !run_cons. apply IH, step_same_tables, H.
Qed.

Lemma added_checkins_key w log c :
  In c (added_checkins w log) -> In (employee c, time c) (dup_keys (employees w) log).
Proof.
  unfold added_checkins, verdict, dup_keys.
  destruct (lookup_employee _ _) as [e|]; [|intros []].
  destruct (truthy (Some e)); [|intros []].
  destruct (has_checkin _ _ _); [intros []|].
  intros [<- | []]. left. reflexivity.
Qed.

(** The verdict on [x] does not see what the iteration of [y] appended when
    the two are checked against different keys. *)
Lemma verdict_after_other x y w :
  (forall k, In k (dup_keys (employees w) x) -> ~ In k (dup_keys (employees w) y)) ->
  verdict (step raises y w) x = verdict w x
  /\ added_checkins (step raises y w) x = added_checkins w x.
Proof.
  intros Hdisj. destruct (step_quiet y w) as [_ Hc].
  assert (Hv : verdict (step raises y w) x = verdict w x).
  { unfold verdict. rewrite step_employees, Hc.
    destruct (lookup_employee (log_attendance_device_id x) (employees w))
      as [e|] eqn:He; [|reflexivity].
    destruct (truthy (Some e)) eqn:Ht; [|reflexivity].
    rewrite has_checkin_app.
    replace (has_checkin e (log_timestamp x) (added_checkins w y)) with false;
      [rewrite orb_false_r; reflexivity|].
    symmetry. apply not_true_is_false. intros Hhas.
    apply existsb_exists in Hhas as [c [Hin Hm]].
    apply checkin_matches_iff in Hm as [E1 E2].
    apply added_checkins_key in Hin. rewrite E1, E2 in Hin.
    apply (Hdisj (e, log_timestamp x)); [|exact Hin].
    unfold dup_keys. rewrite He, Ht. left. reflexivity. }
  split; [exact Hv|]. unfold added_checkins. rewrite Hv, step_employees. reflexivity.
Qed.

Lemma step_swap x y w :
  log_name x <> log_name y ->
  (forall k, In k (dup_keys (employees w) x) -> ~ In k (dup_keys (employees w) y)) ->
  same_tables (step raises x (step raises y w)) (step raises y (step raises x w)).
Proof.
  intros Hne Hdisj.
  destruct (verdict_after_other x y w Hdisj) as [Hvx Hax].
  assert (Hdisj' : forall k, In k (dup_keys (employees w) y) ->
                             ~ In k (dup_keys (employees w) x))
    by (intros k Hy Hx; exact (Hdisj k Hx Hy)).
  destruct (verdict_after_other y x w Hdisj') as [Hvy Hay].
  destruct (step_quiet y w) as [Hsy Hcy], (step_quiet x w) as [Hsx Hcx].
  destruct (step_quiet x (step raises y w)) as [Hsxy Hcxy].
  destruct (step_quiet y (step raises x w)) as [Hsyx Hcyx].
  repeat split.
  - rewrite Hsxy, Hsyx, Hsy, Hsx, Hvx, Hvy. apply set_status_comm, Hne.
  - rewrite !step_employees. reflexivity.
  - rewrite Hcxy, Hcyx, Hcy, Hcx, Hax, Hay, <- !app_assoc.
    apply Permutation_app_head, Permutation_app_comm.
Qed.

Lemma run_permutation logs logs' :
  Permutation logs logs' ->
  forall w w',
    same_tables w w' ->
    NoDup (map log_name logs) ->
    NoDup (flat_map (dup_keys (employees w)) logs) ->
    same_tables (run raises logs w) (run raises logs' w').
Proof.
  induction 1 as [|x l l' HP IH|x y l|l l' l'' HP1 IH1 HP2 IH2];
    intros w w' Hsame Hnames Hkeys.
  - exact Hsame.
  - rewrite !run_cons. simpl in Hnames, Hkeys.
    apply IH.
    + apply step_same_tables, Hsame.
    + inversion Hnames; assumption.
    + rewrite step_employees. apply NoDup_app_remove_l in Hkeys. exact Hkeys.
  - rewrite !run_cons.
    apply same_tables_trans with (run raises l (step raises y (step raises x w))).
    + apply run_same_tables, step_swap.
      * simpl in Hnames. inversion Hnames as [|? ? Hn _]; subst.
        intros E. apply Hn. left. exact E.
      * simpl in Hkeys. intros k Hx Hy.
        rewrite app_assoc in Hkeys. apply NoDup_app_remove_r in Hkeys.
        exact (NoDup_app_disjoint _ _ k Hkeys Hy Hx).
    + apply run_same_tables, step_same_tables, step_same_tables, Hsame.
  - apply same_tables_trans with (run raises l' w').
    + apply IH1; assumption.
    + apply IH2; [apply same_tables_refl | |].
      * eapply Permutation_NoDup; [apply Permutation_map, HP1 | exact Hnames].
      * destruct Hsame as [_ [<- _]].
        eapply Permutation_NoDup; [apply Permutation_flat_map, HP1 | exact Hkeys].
Qed.

(** Every log ends with the status the initial store alone decides. *)
Lemma run_verdict logs w :
  NoDup (map log_name logs) ->
  NoDup (flat_map (dup_keys (employees w)) logs) ->
  (forall l, In l logs -> In (log_name l) (map name (staging w))) ->
  forall l, In l logs ->
    status_of (log_name l) (staging (run raises logs w)) = Some (verdict w l).
Proof.
  revert w. induction logs as [|x rest IH]; intros w Hnames Hkeys Hin l Hl;
    [destruct Hl|].
  simpl in Hnames, Hkeys. inversion Hnames as [|? ? Hx Hrest]; subst.
  rewrite run_cons. destruct Hl as [<- | Hl].
  - rewrite run_status_other by exact Hx.
    destruct (step_quiet x w) as [-> _].
    apply status_of_set_status_same, Hin. left. reflexivity.
  - rewrite IH; try assumption.
    + f_equal. apply verdict_after_other. intros k Hk Hxk.
      apply (NoDup_app_disjoint _ _ k Hkeys Hxk).
      apply in_flat_map. exists l. split; assumption.
    + rewrite step_employees. apply NoDup_app_remove_l in Hkeys. exact Hkeys.
    + intros l' Hl'. rewrite step_names. apply Hin. right. exact Hl'.
Qed.

(** C5, as the code has it.  When no call raises and no two pending records
    are checked against the same (employee, timestamp), the loop may take
    the pending set in any order: the staging table it leaves is the same,
    the checkins it leaves are the same up to their order, and every record
    ends with the status its own fields and the initial store decide. *)
Theorem order_irrelevant_for_distinct_keys (w : World) (logs : list Log) :
  NoDup (map name (staging w)) ->
  NoDup (flat_map (dup_keys (employees w)) (pending_logs (staging w))) ->
  Permutation (pending_logs (staging w)) logs ->
  staging (run raises logs w) = staging (run raises (pending_logs (staging w)) w)
  /\ Permutation (checkins (run raises logs w))
                 (checkins (run raises (pending_logs (staging w)) w))
  /\ (forall l, In l logs ->
        status_of (log_name l) (staging (run raises logs w)) = Some (verdict w l)).
Proof.
  intros Hnd Hkeys HP.
  pose proof (pending_logs_NoDup _ Hnd) as Hnames.
  destruct (run_permutation _ _ HP w w (same_tables_refl w) Hnames Hkeys)
    as [Hs [_ Hc]].
  split; [symmetry; exact Hs|]. split; [symmetry; exact Hc|].
  apply run_verdict.
  - eapply Permutation_NoDup; [apply Permutation_map, HP | exact Hnames].
  - eapply Permutation_NoDup; [apply Permutation_flat_map, HP | exact Hkeys].
  - intros l Hl. apply (Permutation_in _ (Permutation_sym HP)) in Hl.
    unfold pending_logs in Hl. apply in_map_iff in Hl as [r [<- Hr]].
    apply filter_In in Hr as [Hr _]. simpl. apply in_map, Hr.
Qed.

End Order.

(** ** The daily report *)

Section Report.

Variable raises : Op -> World -> option string.

Lemma report_no_data w :
  raises OpReportQuery w = None ->
  report_rows w = [] ->
  send_exceptional_report raises w =
  (Ok PyNone, with_stdout (snoc "No exceptional records to report.") w).
Proof.
  intros Hq Hrows. unfold send_exceptional_report, bind at 1, call.
  rewrite Hq, Hrows. reflexivity.
Qed.

Lemma report_no_recipients w :
  raises OpReportQuery w = None ->
  report_rows w <> [] ->
  raises (OpRecipientsQuery report_roles) w = None ->
  recipient_rows report_roles w = [] ->
  send_exceptional_report raises w =
  (Ok PyNone,
   with_stdout (snoc "No recipients found for the exceptional report.")
     (apply_log_error "No recipients found for the exceptional report"
                      "Exceptional Report" w)).
Proof.
  intros Hq Hrows Hr Hnone. unfold send_exceptional_report, bind at 1, call.
  rewrite Hq. destruct (report_rows w) as [|row rows]; [congruence|].
  unfold bind at 1, get_recipients_by_roles, call.
  fold report_roles. rewrite Hr, Hnone. reflexivity.
Qed.

Lemma report_no_sender w :
  raises OpReportQuery w = None ->
  report_rows w <> [] ->
  raises (OpRecipientsQuery report_roles) w = None ->
  recipient_rows report_roles w <> [] ->
  raises OpGetValueSender w = None ->
  truthy (lookup_sender w) = false ->
  send_exceptional_report raises w =
  (Ok PyNone,
   with_stdout (snoc "No default sender email is configured.")
     (apply_log_error "No default sender email is configured."
                      "Exceptional Report" w)).
Proof.
  intros Hq Hrows Hr Hsome Hs Hfalsy. unfold send_exceptional_report, bind at 1, call.
  rewrite Hq. destruct (report_rows w) as [|row rows]; [congruence|].
  unfold bind at 1, get_recipients_by_roles, call.
  fold report_roles. rewrite Hr.
  destruct (recipient_rows report_roles w) as [|rc rcs]; [congruence|].
  unfold bind at 1, call. rewrite Hs.
  destruct (lookup_sender w) as [sn|]; [rewrite Hfalsy|]; reflexivity.
Qed.

(** C9.  When the day's query has no row, or it has rows and no recipient
    resolves, the report returns None at once and sends nothing; the error
    log gets no entry in the first case and exactly one in the second. *)
Theorem report_without_data_or_recipients (w : World) :
  no_data raises w \/ no_recipients raises w ->
  let r := send_exceptional_report raises w in
  fst r = Ok PyNone
  /\ outbox (snd r) = outbox w
  /\ communications (snd r) = communications w
  /\ error_log (snd r) =
       error_log w ++
       match report_rows w with
       | [] => []
       | _ :: _ => [("No recipients found for the exceptional report",
                     "Exceptional Report")]
       end.
Proof.
  intros [[Hq Hrows] | [Hq [Hrows [Hr Hnone]]]] r; subst r.
  - rewrite (report_no_data w Hq Hrows), Hrows, app_nil_r. repeat split.
  - rewrite (report_no_recipients w Hq Hrows Hr Hnone).
    destruct (report_rows w); [congruence|]. repeat split.
Qed.

(** C10, as the code has it.  Each of the three failed preconditions makes
    the report return None without sending a mail, recording a communication
    or raising.  No recipients and no sender each put one entry in the error
    log; no data puts none there and is only printed. *)
Theorem report_precondition_failures (w : World) :
  no_data raises w \/ no_recipients raises w \/ no_sender raises w ->
  let r := send_exceptional_report raises w in
  fst r = Ok PyNone
  /\ outbox (snd r) = outbox w
  /\ communications (snd r) = communications w
  /\ error_log (snd r) =
       error_log w ++
       match report_rows w, recipient_rows report_roles w with
       | [], _ => []
       | _ :: _, [] => [("No recipients found for the exceptional report",
                         "Exceptional Report")]
       | _ :: _, _ :: _ => [("No default sender email is configured.",
                             "Exceptional Report")]
       end
  /\ stdout (snd r) =
       stdout w ++
       match report_rows w, recipient_rows report_roles w with
       | [], _ => ["No exceptional records to report."]
       | _ :: _, [] => ["No recipients found for the exceptional report."]
       | _ :: _, _ :: _ => ["No default sender email is configured."]
       end.
Proof.
  intros [[Hq Hrows] | [[Hq [Hrows [Hr Hnone]]] | [Hq [Hrows [Hr [Hsome [Hs Hf]]]]]]] r;
    subst r.
  - rewrite (report_no_data w Hq Hrows), Hrows, app_nil_r. repeat split.
  - rewrite (report_no_recipients w Hq Hrows Hr Hnone), Hnone.
    destruct (report_rows w); [congruence|]. repeat split.
  - rewrite (report_no_sender w Hq Hrows Hr Hsome Hs Hf).
    destruct (report_rows w); [congruence|].
    destruct (recipient_rows report_roles w); [congruence|]. repeat split.
Qed.

End Report.

(** ** Runs on the sample stores *)

Ltac distinct_names :=
  repeat (constructor; [simpl; intuition discriminate|]); constructor.

Lemma sample_world_keys : NoDup (map name (staging sample_world)).
Proof. simpl. distinct_names. Qed.

Lemma pending_resolved_fresh_is_processed_witness :
  let wf := snd (process_biometric_logs no_raise sample_world) in
  status_of "BDS-0001" (staging wf) = Some Processed
  /\ In (mkCheckin "HR-EMP-00001" T0 "IN" "D1") (checkins wf)
  /\ count_checkins "HR-EMP-00001" T0 (checkins wf) = 1.
Proof.
  pose proof (pending_resolved_fresh_is_processed no_raise sample_world
                [] [log2; log3] log1 "HR-EMP-00001"
                sample_world_keys eq_refl eq_refl eq_refl
                ltac:(discriminate) eq_refl eq_refl) as H.
  cbv zeta in H. destruct H as (_ & _ & H3 & H4 & H5).
  cbv zeta. split; [exact H3 | split; [exact H4 | exact H5]].
Defined.

Lemma pending_with_checkin_is_duplicate_witness :
  let wf := snd (process_biometric_logs no_raise sample_world) in
  status_of "BDS-0002" (staging wf) = Some Duplicate
  /\ checkins (step no_raise log2 (run no_raise [log1] sample_world))
     = checkins (run no_raise [log1] sample_world).
Proof.
  pose proof (pending_with_checkin_is_duplicate no_raise sample_world
                [log1] [log3] log2 "HR-EMP-00002"
                sample_world_keys eq_refl eq_refl eq_refl
                ltac:(discriminate) eq_refl) as H.
  cbv zeta in H. destruct H as (H1 & _ & _ & H4).
  cbv zeta. split; [exact (proj2 (H4 eq_refl)) | exact H1].
Defined.

Lemma pending_unmatched_is_ignored_witness :
  let wf := snd (process_biometric_logs no_raise sample_world) in
  status_of "BDS-0003" (staging wf) = Some Ignored
  /\ checkins (step no_raise log3 (run no_raise [log1; log2] sample_world))
     = checkins (run no_raise [log1; log2] sample_world).
Proof.
  pose proof (pending_unmatched_is_ignored no_raise sample_world
                [log1; log2] [] log3
                sample_world_keys eq_refl eq_refl eq_refl) as H.
  cbv zeta in H. destruct H as (H1 & H2).
  cbv zeta. split; [exact (proj2 (proj2 (H2 eq_refl))) | exact H1].
Defined.

Lemma second_pass_changes_nothing_witness :
  let w1 := snd (process_biometric_logs no_raise sample_world) in
  let w2 := snd (process_biometric_logs no_raise w1) in
  pending_logs (staging w1) = [] /\ checkins w2 = checkins w1
  /\ staging w2 = staging w1.
Proof.
  exact (second_pass_changes_nothing no_raise sample_world
           sample_world_keys eq_refl eq_refl).
Defined.

Lemma failure_is_isolated_witness :
  let w2 := step insert_refused log1 sample_world in
  let wf := snd (process_biometric_logs insert_refused sample_world) in
  error_log w2 = [("Failed to process log BDS-0001: ValidationError",
                   "Biometric Log Processing Error")]
  /\ status_of "BDS-0001" (staging wf) = Some Pending
  /\ status_of "BDS-0002" (staging wf) = Some Duplicate
  /\ fst (process_biometric_logs insert_refused sample_world) = Ok PyNone.
Proof.
  pose proof (failure_is_isolated insert_refused sample_world
                [] [log2; log3] log1 "ValidationError"
                sample_world_keys eq_refl eq_refl eq_refl) as H.
  cbv zeta in H. destruct H as (H1 & _ & _ & _ & _ & H6 & H7).
  cbv zeta. split; [exact H1 | split; [exact H6 | split; [reflexivity | exact (H7 eq_refl)]]].
Defined.

Lemma pass_frame_witness :
  let wf := snd (process_biometric_logs no_raise sample_world) in
  nth_error (staging wf) 3
  = Some (mkStaging "BDS-0004" "A100" (T0 - 3600) "IN" "D1" Processed)
  /\ (exists added, checkins wf = checkins sample_world ++ added)
  /\ exists ops,
       journal wf = journal sample_world ++ ops
       /\ In (OpSetStatus "BDS-0001" Processed) ops
       /\ status_writes "BDS-0001" ops = 1.
Proof.
  pose proof (pass_frame no_raise sample_world sample_world_keys) as H.
  cbv zeta in H. destruct H as (H1 & H2 & ops & Hj & _ & Hdone & _).
  cbv zeta. split; [|split; [exact H2|]].
  - apply (H1 3); [reflexivity | discriminate].
  - exists ops. split; [exact Hj|].
    destruct (Hdone [] log1 [log2; log3] eq_refl eq_refl eq_refl)
      as (st & _ & Hin & Hone & Hst).
    assert (Hp : st = Processed) by (vm_compute in Hst; congruence).
    rewrite Hp in Hin. split; [exact Hin | exact Hone].
Defined.

Lemma pass_returns_none_witness :
  fst (process_biometric_logs no_raise sample_world) = Ok PyNone
  /\ PyNone = PyNone.
Proof.
  split; [reflexivity|].
  exact (pass_returns_none no_raise sample_world PyNone eq_refl).
Defined.

(** C8 as worded fails: on the sample store one record ends Ignored, one
    Duplicate and one Processed, and the pass returns None, not the counts. *)
Lemma pass_returns_no_counts :
  outcome_counts sample_world (snd (process_biometric_logs no_raise sample_world))
  = PyCounts 1 1 1
  /\ fst (process_biometric_logs no_raise sample_world) = Ok PyNone
  /\ (forall i d p,
        fst (process_biometric_logs no_raise sample_world) <> Ok (PyCounts i d p))
  /\ ~ returns_outcome_counts no_raise sample_world.
Proof.
  split; [reflexivity|]. split; [reflexivity|].
  split; [intros i d p; discriminate|].
  unfold returns_outcome_counts. cbv zeta.
  change (fst (process_biometric_logs no_raise sample_world)) with (@Ok PyValue PyNone).
  change (outcome_counts sample_world (snd (process_biometric_logs no_raise sample_world)))
    with (PyCounts 1 1 1).
  discriminate.
Qed.

(** C5 as worded fails: two pending punches of one employee at one instant.
    Whichever comes first is Processed and the other Duplicate, and the
    checkin kept carries the punch type and device of the first. *)
Lemma order_matters_for_twin_punches :
  let logs := pending_logs (staging twin_world) in
  NoDup (map name (staging twin_world))
  /\ Permutation logs (rev logs)
  /\ status_of "BDS-0001" (staging (run no_raise logs twin_world)) = Some Processed
  /\ status_of "BDS-0001" (staging (run no_raise (rev logs) twin_world)) = Some Duplicate
  /\ checkins (run no_raise logs twin_world)
     = [mkCheckin "HR-EMP-00001" 1735725600 "IN" "D1"]
  /\ checkins (run no_raise (rev logs) twin_world)
     = [mkCheckin "HR-EMP-00001" 1735725600 "OUT" "D2"]
  /\ ~ order_independent no_raise twin_world.
Proof.
  cbv zeta. split; [simpl; distinct_names|].
  split; [apply Permutation_rev|].
  do 4 (split; [reflexivity|]).
  intros H.
  destruct (H (rev (pending_logs (staging twin_world))) (Permutation_rev _)) as [Hs _].
  vm_compute in Hs. discriminate.
Qed.

Lemma order_irrelevant_for_distinct_keys_witness :
  let logs := pending_logs (staging sample_world) in
  staging (run no_raise (rev logs) sample_world) = staging (run no_raise logs sample_world)
  /\ Permutation (checkins (run no_raise (rev logs) sample_world))
                 (checkins (run no_raise logs sample_world)).
Proof.
  assert (Hkeys : NoDup (flat_map (dup_keys (employees sample_world))
                                  (pending_logs (staging sample_world)))).
  { simpl. repeat (constructor; [simpl; intuition congruence|]). constructor. }
  pose proof (order_irrelevant_for_distinct_keys no_raise (fun _ _ => eq_refl)
                sample_world (rev (pending_logs (staging sample_world)))
                sample_world_keys Hkeys (Permutation_rev _)) as H.
  destruct H as (H1 & H2 & _). cbv zeta. split; [exact H1 | exact H2].
Defined.

Lemma report_without_data_or_recipients_witness :
  let r := send_exceptional_report no_raise lonely_world in
  fst r = Ok PyNone /\ outbox (snd r) = []
  /\ error_log (snd r) = [("No recipients found for the exceptional report",
                           "Exceptional Report")].
Proof.
  assert (Hpre : no_data no_raise lonely_world \/ no_recipients no_raise lonely_world).
  { right. repeat split. vm_compute. discriminate. }
  pose proof (report_without_data_or_recipients no_raise lonely_world Hpre) as H.
  cbv zeta in H. destruct H as (H1 & H2 & _ & H4).
  cbv zeta. split; [exact H1 | split; [exact H2 | exact H4]].
Defined.

(** C10 as worded fails: with no row for the day the report prints its
    message and returns; the error log gets no entry. *)
Lemma no_data_is_not_logged :
  no_data no_raise base_world
  /\ stdout (snd (send_exceptional_report no_raise base_world))
     = ["No exceptional records to report."]
  /\ error_log (snd (send_exceptional_report no_raise base_world)) = []
  /\ ~ logged_and_returned no_raise base_world.
Proof.
  split; [split; reflexivity|]. do 2 (split; [reflexivity|]).
  intros (_ & _ & entry & H). vm_compute in H. discriminate.
Qed.

Lemma report_precondition_failures_witness :
  let r := send_exceptional_report no_raise senderless_world in
  fst r = Ok PyNone /\ outbox (snd r) = [] /\ communications (snd r) = []
  /\ error_log (snd r) = [("No default sender email is configured.",
                           "Exceptional Report")].
Proof.
  assert (Hpre : no_data no_raise senderless_world
                 \/ no_recipients no_raise senderless_world
                 \/ no_sender no_raise senderless_world).
  { right. right. repeat split; vm_compute; discriminate. }
  pose proof (report_precondition_failures no_raise senderless_world Hpre) as H.
  cbv zeta in H. destruct H as (H1 & H2 & H3 & H4 & _).
  cbv zeta. split; [exact H1 | split; [exact H2 | split; [exact H3 | exact H4]]].
Defined.

(** * Further properties of the reconciliation pass *)

Section Pass_invariants.

Variable raises : Op -> World -> option string.

(** ** At most one checkin per (employee, time) *)

Lemma step_unique log w :
  (forall e t, count_checkins e t (checkins w) <= 1) ->
  forall e t, count_checkins e t (checkins (step raises log w)) <= 1.
Proof.
  intros Huniq e t.
  destruct (step_effect_holds raises log w)
    as [_ Hc _|st _ _ _ Hc _|e' Hno _ Hc _|e' Hno _ Hc _]; rewrite Hc; auto.
  all: rewrite count_checkins_app; unfold count_checkins at 2; simpl.
  all: destruct (checkin_matches e t (new_checkin e' log)) eqn:E; simpl;
    [|rewrite Nat.add_0_r; apply Huniq].
  all: apply checkin_matches_iff in E as [E1 E2]; simpl in E1, E2; subst.
  all: rewrite (has_checkin_false_count _ _ _ Hno); lia.
Qed.

Lemma run_unique logs w :
  (forall e t, count_checkins e t (checkins w) <= 1) ->
  forall e t, count_checkins e t (checkins (run raises logs w)) <= 1.
Proof.
  revert w. induction logs as [|log logs IH]; intros w Huniq; [exact Huniq|].
  rewrite run_cons. apply IH, step_unique, Huniq.
Qed.

(** X1.  A pass keeps the checkin table free of duplicates: when no
    (employee, time) pair has more than one checkin before the pass, none
    has more than one after it, whatever call fails on the way. *)
Theorem pass_keeps_checkins_unique (w0 : World) :
  (forall e t, count_checkins e t (checkins w0) <= 1) ->
  forall e t,
    count_checkins e t (checkins (snd (process_biometric_logs raises w0))) <= 1.
Proof.
  intros Huniq e t.
  destruct (raises OpGetAllPending w0) as [m|] eqn:Hget.
  - rewrite (pass_get_all_raises raises w0 m Hget). apply Huniq.
  - rewrite (pass_checkins raises w0 Hget). apply run_unique, Huniq.
Qed.

(** ** Only the status column is written, and never back to Pending *)

Lemma set_status_to_log n st rows :
  map to_log (set_status n st rows) = map to_log rows.
Proof.
  unfold set_status. rewrite map_map. apply map_ext. intros r.
  destruct (String.eqb (name r) n); reflexivity.
Qed.

Lemma set_status_pending_row n st rows i r :
  st <> Pending ->
  nth_error (set_status n st rows) i = Some r -> status r = Pending ->
  nth_error rows i = Some r.
Proof.
  intros Hst Hnth Hp. unfold set_status in Hnth. rewrite nth_error_map in Hnth.
  destruct (nth_error rows i) as [r0|]; [|discriminate].
  simpl in Hnth. destruct (String.eqb (name r0) n).
  - injection Hnth as <-. simpl in Hp. contradiction.
  - exact Hnth.
Qed.

Lemma step_only_status log w :
  map to_log (staging (step raises log w)) = map to_log (staging w)
  /\ forall i r, nth_error (staging (step raises log w)) i = Some r ->
                 status r = Pending -> nth_error (staging w) i = Some r.
Proof.
  destruct (step_effect_holds raises log w)
    as [Hs _ _|st Hst _ Hs _ _|e _ Hs _ _|e _ Hs _ _]; rewrite Hs.
  - auto.
  - split; [apply set_status_to_log|].
    intros i r. apply set_status_pending_row, Hst.
  - auto.
  - split; [apply set_status_to_log|].
    intros i r. apply set_status_pending_row. discriminate.
Qed.

Lemma run_only_status logs w :
  map to_log (staging (run raises logs w)) = map to_log (staging w)
  /\ forall i r, nth_error (staging (run raises logs w)) i = Some r ->
                 status r = Pending -> nth_error (staging w) i = Some r.
Proof.
  revert w. induction logs as [|log logs IH]; intros w; [auto|].
  rewrite run_cons. destruct (IH (step raises log w)) as [H1 H2].
  destruct (step_only_status log w) as [H3 H4].
  split; [congruence|]. intros i r Hnth Hp. apply H4; auto.
Qed.

(** X2.  A pass writes nothing but the status column of the staging table:
    the rows keep their order, number, name, attendance_device_id,
    timestamp, punch_type and device_id.  It never sets a status to
    Pending: a row that is Pending after the pass is the very row that was
    there before.  This holds whatever call fails. *)
Theorem pass_writes_only_status (w0 : World) :
  let wf := snd (process_biometric_logs raises w0) in
  map to_log (staging wf) = map to_log (staging w0)
  /\ List.length (staging wf) = List.length (staging w0)
  /\ forall i r, nth_error (staging wf) i = Some r -> status r = Pending ->
                 nth_error (staging w0) i = Some r.
Proof.
  intros wf. subst wf.
  assert (H : map to_log (staging (snd (process_biometric_logs raises w0)))
              = map to_log (staging w0)
              /\ forall i r,
                   nth_error (staging (snd (process_biometric_logs raises w0))) i = Some r ->
                   status r = Pending -> nth_error (staging w0) i = Some r).
  { destruct (raises OpGetAllPending w0) as [m|] eqn:Hget.
    - rewrite (pass_get_all_raises raises w0 m Hget). auto.
    - rewrite (pass_staging raises w0 Hget). apply run_only_status. }
  destruct H as [H1 H2]. split; [exact H1|]. split; [|exact H2].
  rewrite <- (length_map to_log (staging w0)), <- H1. symmetry. apply length_map.
Qed.

(** ** Where the new checkins come from *)

Lemma step_added_from_log log w :
  exists added,
    checkins (step raises log w) = checkins w ++ added
    /\ forall c, In c added ->
         exists e,
           lookup_employee (log_attendance_device_id log) (employees w) = Some e
           /\ e <> EmptyString
           /\ has_checkin e (log_timestamp log) (checkins w) = false
           /\ c = new_checkin e log.
Proof.
  assert (Htruthy : forall e, truthy (Some e) = true -> e <> EmptyString).
  { intros e Ht ->. discriminate. }
  destruct (step_cases raises log w) as [[w' [Hb [_ ->]]] | [m [w' [Hb [_ ->]]]]];
    inversion Hb; subst; autorewrite with world.
  1, 2, 4: exists []; split; [symmetry; apply app_nil_r | intros c []].
  all: eexists; split; [reflexivity|]; intros c [<- | []]; eauto 6.
Qed.

Lemma run_added_from_logs logs w :
  exists added,
    checkins (run raises logs w) = checkins w ++ added
    /\ forall c, In c added ->
         exists log e,
           In log logs
           /\ lookup_employee (log_attendance_device_id log) (employees w) = Some e
           /\ e <> EmptyString
           /\ c = new_checkin e log.
Proof.
  revert w. induction logs as [|log logs IH]; intros w.
  - exists []. split; [symmetry; apply app_nil_r | intros c []].
  - rewrite run_cons.
    destruct (step_added_from_log log w) as [a1 [H1 P1]].
    destruct (IH (step raises log w)) as [a2 [H2 P2]].
    exists (a1 ++ a2). split; [rewrite H2, H1, app_assoc; reflexivity|].
    intros c Hc. apply in_app_or in Hc as [Hc | Hc].
    + destruct (P1 c Hc) as [e [He [Hne [_ Heq]]]].
      exists log, e. repeat split; auto. left. reflexivity.
    + destruct (P2 c Hc) as [l [e [Hl [He [Hne Heq]]]]].
      rewrite step_employees in He.
      exists l, e. repeat split; auto. right. exact Hl.
Qed.

(** X3.  Every checkin a pass adds is built from one of the records that
    were Pending at its start and from the employee that record's
    attendance_device_id resolves to: employee is that (non-empty) name,
    time the record's timestamp, log_type its punch_type, device_id its
    device_id.  The employee table itself is never written. *)
Theorem pass_checkins_come_from_pending (w0 : World) :
  let wf := snd (process_biometric_logs raises w0) in
  employees wf = employees w0
  /\ exists added,
       checkins wf = checkins w0 ++ added
       /\ forall c, In c added ->
            exists r e,
              In r (staging w0) /\ status r = Pending
              /\ lookup_employee (attendance_device_id r) (employees w0) = Some e
              /\ e <> EmptyString
              /\ c = mkCheckin e (timestamp r) (punch_type r) (device_id r).
Proof.
  intros wf. subst wf.
  destruct (raises OpGetAllPending w0) as [m|] eqn:Hget.
  - rewrite (pass_get_all_raises raises w0 m Hget). simpl. split; [reflexivity|].
    exists []. split; [symmetry; apply app_nil_r | intros c []].
  - split.
    + rewrite (pass_unfold raises w0 Hget). simpl.
      destruct (raises OpCommit _); simpl; apply run_employees.
    + rewrite (pass_checkins raises w0 Hget).
      destruct (run_added_from_logs (pending_logs (staging w0)) w0)
        as [added [Hadd Hfrom]].
      exists added. split; [exact Hadd|].
      intros c Hc. destruct (Hfrom c Hc) as [log [e [Hlog [He [Hne ->]]]]].
      unfold pending_logs in Hlog. apply in_map_iff in Hlog as [r [<- Hr]].
      apply filter_In in Hr as [Hr Hp]. apply Status_eqb_eq in Hp.
      exists r, e. repeat split; auto.
Qed.

(** ** What can make the pass raise *)

(** X4.  An exception leaves [process_biometric_logs] only from the two
    calls outside the [try]: from the read of the pending set, and then the
    store is untouched; or from the final commit, and then the store is the
    one the loop left, with no commit recorded. *)
Theorem pass_raises_only_at_read_or_commit (w0 : World) (m : string) :
  fst (process_biometric_logs raises w0) = Raise m ->
  (raises OpGetAllPending w0 = Some m
   /\ snd (process_biometric_logs raises w0) = w0)
  \/ (raises OpGetAllPending w0 = None
      /\ raises OpCommit (run raises (pending_logs (staging w0)) w0) = Some m
      /\ snd (process_biometric_logs raises w0)
         = run raises (pending_logs (staging w0)) w0).
Proof.
  destruct (raises OpGetAllPending w0) as [m'|] eqn:Hget.
  - rewrite (pass_get_all_raises raises w0 m' Hget). simpl.
    intros [= ->]. left. auto.
  - rewrite (pass_unfold raises w0 Hget). cbv zeta.
    destruct (raises OpCommit _) as [m'|] eqn:Hc; simpl; [|discriminate].
    intros [= ->]. right. auto.
Qed.

(** ** Nothing pending *)

Lemma no_pending_rows rows :
  (forall r, In r rows -> status r <> Pending) -> pending_logs rows = [].
Proof.
  intros H. unfold pending_logs.
  induction rows as [|r rows IH]; [reflexivity|]. simpl.
  destruct (is_pending r) eqn:E.
  - unfold is_pending in E. apply Status_eqb_eq in E.
    exfalso. apply (H r); [left; reflexivity | exact E].
  - apply IH. intros r' Hr'. apply H. right. exact Hr'.
Qed.

(** X5.  On a store with no Pending row a pass touches no table and logs
    nothing: staging, checkins and the error log are as before, and the
    only write it records, when it returns, is the commit. *)
Theorem pass_on_settled_store (w0 : World) :
  (forall r, In r (staging w0) -> status r <> Pending) ->
  let wf := snd (process_biometric_logs raises w0) in
  staging wf = staging w0
  /\ checkins wf = checkins w0
  /\ error_log wf = error_log w0
  /\ (journal wf = journal w0 \/ journal wf = journal w0 ++ [OpCommit])
  /\ (fst (process_biometric_logs raises w0) = Ok PyNone ->
      journal wf = journal w0 ++ [OpCommit]).
Proof.
  intros Hsettled wf. subst wf.
  pose proof (no_pending_rows _ Hsettled) as Hnone.
  destruct (raises OpGetAllPending w0) as [m|] eqn:Hget.
  - rewrite (pass_get_all_raises raises w0 m Hget). simpl.
    repeat split; auto. discriminate.
  - rewrite (pass_unfold raises w0 Hget), Hnone. cbv zeta. simpl.
    destruct (raises OpCommit w0); simpl; repeat split; auto. discriminate.
Qed.

(** ** A record whose checkin went in but whose status write failed *)

(** X6.  When the insert of a record's checkin succeeds and the write of
    status Processed then raises, the checkin stays in the table and the
    record stays as it was.  From then on, in any later store that still
    holds these checkins and employees, an iteration on the same record
    that does not raise marks it Duplicate and adds no second checkin. *)
Theorem half_done_record_becomes_duplicate
    (log : Log) (w : World) (e m : string) :
  lookup_employee (log_attendance_device_id log) (employees w) = Some e ->
  e <> EmptyString ->
  process_log_body raises log w
  = (Raise m, apply_insert_checkin (new_checkin e log) w) ->
  let w1 := step raises log w in
  checkins w1 = checkins w ++ [new_checkin e log]
  /\ staging w1 = staging w
  /\ forall w2 more,
       employees w2 = employees w1 ->
       checkins w2 = checkins w1 ++ more ->
       fst (process_log_body raises log w2) = Ok tt ->
       step raises log w2 = apply_set_status (log_name log) Duplicate w2.
Proof.
  intros Hemp Hne Hbody w1.
  assert (Hw1 : w1 = apply_log_error (failure_message log m) error_title
                       (apply_insert_checkin (new_checkin e log) w)).
  { subst w1. rewrite (step_raise raises log w m); rewrite Hbody; reflexivity. }
  split; [rewrite Hw1; reflexivity|]. split; [rewrite Hw1; reflexivity|].
  intros w2 more He2 Hc2 Hok.
  assert (Hhas : has_checkin e (log_timestamp log) (checkins w2) = true).
  { rewrite Hc2, Hw1. autorewrite with world.
    rewrite !has_checkin_app. simpl. unfold checkin_matches. simpl.
    rewrite String.eqb_refl, Z.eqb_refl. simpl.
    rewrite orb_true_r. reflexivity. }
  assert (He : lookup_employee (log_attendance_device_id log) (employees w2) = Some e).
  { rewrite He2, Hw1. exact Hemp. }
  rewrite (step_ok raises log w2 Hok).
  pose proof (process_log_body_spec raises log w2) as Hb. rewrite Hok in Hb.
  inversion Hb as [Ht|e' He' _ Hd|e' He' _ Hd| |]; subst.
  - rewrite He in Ht. simpl in Ht. apply negb_false_iff, String.eqb_eq in Ht.
    contradiction.
  - reflexivity.
  - replace e' with e in Hd by congruence. congruence.
Qed.

(** ** One error-log entry per record left Pending *)

Lemma step_error_entry log w :
  (fst (process_log_body raises log w) = Ok tt
   /\ error_log (step raises log w) = error_log w)
  \/ (exists m,
        fst (process_log_body raises log w) = Raise m
        /\ staging (step raises log w) = staging w
        /\ error_log (step raises log w)
           = error_log w ++ [(failure_message log m, error_title)]).
Proof.
  destruct (step_cases raises log w) as [[w' [Hb [Hr ->]]] | [m [w' [Hb [Hr ->]]]]].
  - left. split; [exact Hr|]. inversion Hb; reflexivity.
  - right. exists m. destruct (raised_body_frame log w m w' Hb) as [Hs He].
    autorewrite with world. rewrite Hs, He. auto.
Qed.

Lemma run_failures_counted logs w :
  NoDup (map log_name logs) ->
  (forall l, In l logs -> status_of (log_name l) (staging w) = Some Pending) ->
  exists added,
    error_log (run raises logs w) = error_log w ++ added
    /\ (forall entry, In entry added -> snd entry = error_title)
    /\ List.length added
       = List.length
           (filter (fun l => match status_of (log_name l)
                                             (staging (run raises logs w)) with
                             | Some s => Status_eqb s Pending
                             | None => false
                             end) logs).
Proof.
  revert w. induction logs as [|x rest IH]; intros w Hnd Hpend.
  - exists []. rewrite app_nil_r. repeat split. intros entry [].
  - simpl in Hnd. inversion Hnd as [|? ? Hx Hrest]; subst.
    assert (Hpend' : forall l, In l rest ->
              status_of (log_name l) (staging (step raises x w)) = Some Pending).
    { intros l Hl. rewrite step_status_other.
      - apply Hpend. right. exact Hl.
      - intros E. apply Hx. rewrite <- E. apply in_map, Hl. }
    destruct (IH (step raises x w) Hrest Hpend') as [a2 [H2 [T2 L2]]].
    pose proof (Hpend x (or_introl eq_refl)) as Hxp.
    rewrite run_cons. simpl filter.
    rewrite (run_status_other raises rest (step raises x w) (log_name x) Hx).
    destruct (step_error_entry x w) as [[Hok He] | [m [Hr [Hs He]]]].
    + exists a2. rewrite H2, He. split; [reflexivity|]. split; [exact T2|].
      destruct (status_of (log_name x) (staging (step raises x w))) as [s|] eqn:Es;
        [|exact L2].
      destruct (Status_eqb s Pending) eqn:Ep; [|exact L2].
      apply Status_eqb_eq in Ep. subst s. exfalso.
      revert Es. apply step_ok_settles; [|exact Hok].
      eapply status_of_in. exact Hxp.
    + exists ((failure_message x m, error_title) :: a2).
      rewrite H2, He, <- app_assoc. split; [reflexivity|]. split.
      * intros entry [<- | Hin]; [reflexivity | apply T2, Hin].
      * rewrite Hs, Hxp. simpl. rewrite L2. reflexivity.
Qed.

(** X7.  The error log grows by exactly one entry, titled "Biometric Log
    Processing Error", for each record of the pending set that is still
    Pending when the pass ends; a pending record that met no failure is no
    longer Pending. *)
Theorem pass_logs_one_entry_per_record_left_pending (w0 : World) :
  NoDup (map name (staging w0)) ->
  raises OpGetAllPending w0 = None ->
  let wf := snd (process_biometric_logs raises w0) in
  exists added,
    error_log wf = error_log w0 ++ added
    /\ (forall entry, In entry added -> snd entry = "Biometric Log Processing Error")
    /\ List.length added = count_outcome w0 wf Pending.
Proof.
  intros Hnd Hget wf. subst wf. unfold count_outcome.
  rewrite (pass_error_log raises w0 Hget), (pass_staging raises w0 Hget).
  apply run_failures_counted.
  - apply pending_logs_NoDup, Hnd.
  - intros l Hl. apply pending_log_status; assumption.
Qed.

End Pass_invariants.

(** ** Counting the outcomes of a pass in which no call raises *)

Section Quiet_pass.

Variable raises : Op -> World -> option string.
Hypothesis quiet : forall op w, raises op w = None.

Lemma added_checkins_length w log :
  List.length (added_checkins w log)
  = if Status_eqb (verdict w log) Processed then 1 else 0.
Proof.
  unfold added_checkins, verdict.
  destruct (lookup_employee _ _) as [e|]; [|reflexivity].
  destruct (truthy (Some e)); [|reflexivity].
  destruct (has_checkin _ _ _); reflexivity.
Qed.

Lemma verdict_not_pending w log : verdict w log <> Pending.
Proof.
  unfold verdict.
  destruct (lookup_employee _ _) as [e|]; [|discriminate].
  destruct (truthy (Some e)); [|discriminate].
  destruct (has_checkin _ _ _); discriminate.
Qed.

Lemma run_quiet_counted logs w :
  NoDup (map log_name logs) ->
  (forall l, In l logs -> In (log_name l) (map name (staging w))) ->
  List.length (checkins (run raises logs w))
  = List.length (checkins w)
    + List.length
        (filter (fun l => match status_of (log_name l)
                                          (staging (run raises logs w)) with
                          | Some s => Status_eqb s Processed
                          | None => false
                          end) logs)
  /\ forall l, In l logs ->
       exists st, status_of (log_name l) (staging (run raises logs w)) = Some st
                  /\ st <> Pending.
Proof.
  revert w. induction logs as [|x rest IH]; intros w Hnd Hin.
  - simpl. split; [lia | intros l []].
  - simpl in Hnd. inversion Hnd as [|? ? Hx Hrest]; subst.
    assert (Hin' : forall l, In l rest ->
              In (log_name l) (map name (staging (step raises x w)))).
    { intros l Hl. rewrite step_names. apply Hin. right. exact Hl. }
    destruct (IH (step raises x w) Hrest Hin') as [L2 S2].
    destruct (step_quiet raises quiet x w) as [Hs Hc].
    assert (Hxs : status_of (log_name x) (staging (run raises rest (step raises x w)))
                  = Some (verdict w x)).
    { rewrite (run_status_other raises rest _ (log_name x) Hx), Hs.
      apply status_of_set_status_same, Hin. left. reflexivity. }
    rewrite run_cons. split.
    + simpl filter. rewrite Hxs, L2, Hc, length_app, added_checkins_length.
      destruct (Status_eqb (verdict w x) Processed); simpl; lia.
    + intros l [<- | Hl]; [|apply S2, Hl].
      exists (verdict w x). split; [exact Hxs | apply verdict_not_pending].
Qed.

Lemma outcomes_partition (f : Log -> option Status) logs :
  (forall l, In l logs -> exists st, f l = Some st /\ st <> Pending) ->
  List.length (filter (fun l => match f l with
                                | Some s => Status_eqb s Ignored
                                | None => false end) logs)
  + List.length (filter (fun l => match f l with
                                  | Some s => Status_eqb s Duplicate
                                  | None => false end) logs)
  + List.length (filter (fun l => match f l with
                                  | Some s => Status_eqb s Processed
                                  | None => false end) logs)
  = List.length logs
  /\ filter (fun l => match f l with
                      | Some s => Status_eqb s Pending
                      | None => false end) logs = [].
Proof.
  induction logs as [|x rest IH]; intros H; [split; reflexivity|].
  destruct IH as [IH1 IH2]; [intros l Hl; apply H; right; exact Hl|].
  destruct (H x (or_introl eq_refl)) as [st [Hst Hne]].
  simpl. rewrite Hst, IH2.
  destruct st; simpl; try contradiction; split; try reflexivity; lia.
Qed.

(** X8.  In a pass in which no call raises, every record of the pending set
    ends in exactly one of Ignored, Duplicate and Processed, none stays
    Pending, and the checkin table grows by exactly as many rows as there
    are records that ended Processed. *)
Theorem quiet_pass_accounts_for_every_record (w0 : World) :
  NoDup (map name (staging w0)) ->
  let wf := snd (process_biometric_logs raises w0) in
  count_outcome w0 wf Ignored + count_outcome w0 wf Duplicate
  + count_outcome w0 wf Processed
  = List.length (pending_logs (staging w0))
  /\ count_outcome w0 wf Pending = 0
  /\ List.length (checkins wf)
     = List.length (checkins w0) + count_outcome w0 wf Processed.
Proof.
  intros Hnd wf. subst wf. unfold count_outcome.
  rewrite (pass_checkins raises w0 (quiet _ _)), (pass_staging raises w0 (quiet _ _)).
  set (logs := pending_logs (staging w0)).
  assert (Hin : forall l, In l logs -> In (log_name l) (map name (staging w0))).
  { intros l Hl. eapply status_of_in. apply pending_log_status; eassumption. }
  destruct (run_quiet_counted logs w0 (pending_logs_NoDup _ Hnd) Hin) as [HL HS].
  destruct (outcomes_partition
              (fun l => status_of (log_name l) (staging (run raises logs w0)))
              logs HS) as [HP HZ].
  split; [exact HP|]. split; [rewrite HZ; reflexivity | exact HL].
Qed.

End Quiet_pass.

(** * Further properties of the daily report *)

Section Report_paths.

Variable raises : Op -> World -> option string.

(** The report as one case analysis on what the store holds and on which
    call raises. *)
Lemma report_unfold w :
  send_exceptional_report raises w =
  match raises OpReportQuery w with
  | Some e => (Raise e, w)
  | None =>
  match report_rows w with
  | [] => (Ok PyNone, with_stdout (snoc "No exceptional records to report.") w)
  | _ :: _ =>
  match raises (OpRecipientsQuery report_roles) w with
  | Some e => (Raise e, w)
  | None =>
  match recipient_rows report_roles w with
  | [] =>
      (Ok PyNone,
       with_stdout (snoc "No recipients found for the exceptional report.")
         (apply_log_error "No recipients found for the exceptional report"
                          "Exceptional Report" w))
  | _ :: _ =>
  match raises OpGetValueSender w with
  | Some e => (Raise e, w)
  | None =>
  match lookup_sender w with
  | Some s =>
      if truthy (Some s) then
        match raises (OpInsertCommunication (report_communication w s)) w with
        | Some e => (Raise e, w)
        | None =>
            let w1 := with_report_communication w s in
            match raises (OpSendmail (report_mail w s)) w1 with
            | Some e =>
                (Ok PyNone,
                 apply_log_error ("Failed to send email: " +++ e) "Exceptional Report"
                   (with_stdout
                      (snoc ("Failed to send exceptional report email: " +++ e)) w1))
            | None =>
                (Ok PyNone,
                 with_stdout
                   (snoc ("Exceptional report email sent to: "
                          +++ String.concat ", " (recipient_rows report_roles w)))
                   (with_outbox (snoc (report_mail w s)) w1))
            end
        end
      else
        (Ok PyNone,
         with_stdout (snoc "No default sender email is configured.")
           (apply_log_error "No default sender email is configured."
                            "Exceptional Report" w))
  | None =>
      (Ok PyNone,
       with_stdout (snoc "No default sender email is configured.")
         (apply_log_error "No default sender email is configured."
                          "Exceptional Report" w))
  end end end end end end.
Proof.
  unfold send_exceptional_report, bind at 1, call.
  destruct (raises OpReportQuery w); [reflexivity|].
  destruct (report_rows w) as [|row rows] eqn:Hrows; [reflexivity|].
  unfold bind at 1, get_recipients_by_roles, call. fold report_roles.
  destruct (raises (OpRecipientsQuery report_roles) w); [reflexivity|].
  destruct (recipient_rows report_roles w) as [|rc rcs] eqn:Hrc; [reflexivity|].
  unfold bind at 1, call.
  destruct (raises OpGetValueSender w); [reflexivity|].
  destruct (lookup_sender w) as [s|]; [|reflexivity].
  destruct (truthy (Some s)); [|reflexivity].
  unfold bind at 1, insert_communication, call.
  unfold with_report_communication, report_mail, report_communication.
  rewrite Hrows, Hrc. cbv zeta.
  destruct (raises (OpInsertCommunication _) w); [reflexivity|].
  unfold bind, try_except, sendmail, call, print, log_error, ret. simpl.
  destruct (raises (OpSendmail _) _); reflexivity.
Qed.

Lemma truthy_nonempty s : s <> EmptyString -> truthy (Some s) = true.
Proof.
  intros H. simpl. destruct (String.eqb_spec s EmptyString); [contradiction|reflexivity].
Qed.

Lemma truthy_some_nonempty s : truthy (Some s) = true -> s <> EmptyString.
Proof. intros H ->. discriminate. Qed.

Lemma report_ready_unfold w s :
  report_ready raises w s ->
  send_exceptional_report raises w =
  match raises (OpSendmail (report_mail w s)) (with_report_communication w s) with
  | Some e =>
      (Ok PyNone,
       apply_log_error ("Failed to send email: " +++ e) "Exceptional Report"
         (with_stdout (snoc ("Failed to send exceptional report email: " +++ e))
                      (with_report_communication w s)))
  | None =>
      (Ok PyNone,
       with_stdout
         (snoc ("Exceptional report email sent to: "
                +++ String.concat ", " (recipient_rows report_roles w)))
         (with_outbox (snoc (report_mail w s)) (with_report_communication w s)))
  end.
Proof.
  intros (Hq & Hrows & Hr & Hrc & Hs & Hsender & Hne & Hins).
  rewrite report_unfold, Hq, Hr, Hs, Hsender, (truthy_nonempty s Hne), Hins.
  destruct (report_rows w) eqn:E1; [congruence|].
  destruct (recipient_rows report_roles w) eqn:E2; [congruence|].
  reflexivity.
Qed.

(** X9.  When the report is ready and the mail goes out, the run returns
    None, records exactly one Communication and sends exactly one mail: to
    the recipients found, from the default outgoing address, with the
    summary as message, the same text as the Communication's content, and
    the Communication's name as reference.  Nothing is put in the error
    log. *)
Theorem report_sends_one_mail (w : World) (s : string) :
  report_ready raises w s ->
  raises (OpSendmail (report_mail w s)) (with_report_communication w s) = None ->
  let r := send_exceptional_report raises w in
  fst r = Ok PyNone
  /\ communications (snd r) = communications w ++ [report_communication w s]
  /\ outbox (snd r)
     = outbox w ++ [mkMail (recipient_rows report_roles w)
                           "Exceptional Report - Biometric Data Staging" s
                           (content (report_communication w s)) "Communication"
                           (communication_name (report_communication w s))
                           "header"]
  /\ content (report_communication w s) = compose_email_body (report_rows w)
  /\ error_log (snd r) = error_log w.
Proof.
  intros Hready Hsend r. subst r.
  rewrite (report_ready_unfold w s Hready), Hsend. repeat split.
Qed.

(** X10.  When the report is ready and the mail call raises, the exception
    is caught: the run returns None, no mail is in the outbox, the
    Communication inserted before the attempt stays recorded, and the error
    log gets exactly one entry, "Failed to send email: " followed by the
    error. *)
Theorem report_survives_mail_failure (w : World) (s m : string) :
  report_ready raises w s ->
  raises (OpSendmail (report_mail w s)) (with_report_communication w s) = Some m ->
  let r := send_exceptional_report raises w in
  fst r = Ok PyNone
  /\ outbox (snd r) = outbox w
  /\ communications (snd r) = communications w ++ [report_communication w s]
  /\ error_log (snd r)
     = error_log w ++ [("Failed to send email: " +++ m, "Exceptional Report")]
  /\ stdout (snd r)
     = stdout w ++ ["Failed to send exceptional report email: " +++ m].
Proof.
  intros Hready Hsend r. subst r.
  rewrite (report_ready_unfold w s Hready), Hsend. repeat split.
Qed.

(** X11.  An exception leaves [send_exceptional_report] only from the
    grouped query, the recipients query, the sender lookup or the insert of
    the Communication, never from the mail call; and whenever the report
    raises, the store and all sinks are exactly as before the call. *)
Theorem report_raises_leave_store_untouched (w : World) (e : string) :
  fst (send_exceptional_report raises w) = Raise e ->
  snd (send_exceptional_report raises w) = w
  /\ (raises OpReportQuery w = Some e
      \/ raises (OpRecipientsQuery report_roles) w = Some e
      \/ raises OpGetValueSender w = Some e
      \/ exists s, lookup_sender w = Some s
                   /\ raises (OpInsertCommunication (report_communication w s)) w
                      = Some e).
Proof.
  rewrite report_unfold.
  destruct (raises OpReportQuery w) as [e1|]; [simpl; intros [= ->]; auto|].
  destruct (report_rows w) as [|row rows]; [discriminate|].
  destruct (raises (OpRecipientsQuery report_roles) w) as [e2|];
    [simpl; intros [= ->]; auto|].
  destruct (recipient_rows report_roles w) as [|rc rcs]; [discriminate|].
  destruct (raises OpGetValueSender w) as [e3|]; [simpl; intros [= ->]; auto|].
  destruct (lookup_sender w) as [s|]; [|discriminate].
  destruct (truthy (Some s)); [|discriminate].
  destruct (raises (OpInsertCommunication _) w) as [e4|] eqn:E4.
  - simpl. intros [= ->]. split; [reflexivity|]. do 3 right. eauto.
  - cbv zeta. destruct (raises (OpSendmail _) _); discriminate.
Qed.

(** X12.  Whatever call fails, the report never writes the staging,
    employee or checkin tables, records at most one Communication and sends
    at most one mail; and a mail is only ever sent when there are rows for
    the day, recipients and a non-empty default sender, after the matching
    Communication has been recorded in the same run. *)
Theorem report_frame_and_mail (w : World) :
  let r := send_exceptional_report raises w in
  staging (snd r) = staging w
  /\ employees (snd r) = employees w
  /\ checkins (snd r) = checkins w
  /\ (communications (snd r) = communications w
      \/ exists s, communications (snd r)
                   = communications w ++ [report_communication w s])
  /\ (outbox (snd r) = outbox w
      \/ exists s,
           lookup_sender w = Some s /\ s <> EmptyString
           /\ report_rows w <> [] /\ recipient_rows report_roles w <> []
           /\ outbox (snd r) = outbox w ++ [report_mail w s]
           /\ communications (snd r)
              = communications w ++ [report_communication w s]).
Proof.
  intros r. subst r. rewrite report_unfold.
  destruct (raises OpReportQuery w); [simpl; auto 6|].
  destruct (report_rows w) as [|row rows] eqn:E1; [simpl; auto 6|].
  destruct (raises (OpRecipientsQuery report_roles) w); [simpl; auto 6|].
  destruct (recipient_rows report_roles w) as [|rc rcs] eqn:E2; [simpl; auto 6|].
  destruct (raises OpGetValueSender w); [simpl; auto 6|].
  destruct (lookup_sender w) as [s|] eqn:E3; [|simpl; auto 6].
  destruct (truthy (Some s)) eqn:E4; [|simpl; auto 6].
  destruct (raises (OpInsertCommunication _) w); [simpl; auto 6|].
  cbv zeta. destruct (raises (OpSendmail _) _); simpl.
  - repeat split; auto. right. exists s. reflexivity.
  - repeat split; auto; right; exists s; [reflexivity|].
    repeat split; auto using truthy_some_nonempty; congruence.
Qed.

(** ** The two queries of the report *)

Lemma distinct_In a l : In a (distinct l) <-> In a l.
Proof.
  induction l as [|x l IH]; simpl; [tauto|].
  rewrite filter_In, IH, negb_true_iff, String.eqb_neq.
  destruct (string_dec x a) as [-> | Hne]; [tauto|].
  split; [tauto|]. intros [H | H]; [tauto|]. right. split; [exact H|].
  intros ->. contradiction.
Qed.

Lemma distinct_NoDup l : NoDup (distinct l).
Proof.
  induction l as [|x l IH]; simpl; constructor.
  - rewrite filter_In, negb_true_iff, String.eqb_neq. tauto.
  - apply NoDup_filter, IH.
Qed.

Lemma holds_role_iff roles u hs :
  holds_role roles u hs = true
  <-> exists h, In h hs /\ parent h = user_name u /\ In (role h) roles.
Proof.
  unfold holds_role. rewrite existsb_exists. split.
  - intros [h [Hin Hb]]. apply andb_true_iff in Hb as [Hp Hr].
    apply String.eqb_eq in Hp. apply existsb_exists in Hr as [x [Hx Hrx]].
    apply String.eqb_eq in Hrx. exists h. subst x. auto.
  - intros [h [Hin [Hp Hr]]]. exists h. split; [exact Hin|].
    apply andb_true_iff. split; [apply String.eqb_eq, Hp|].
    apply existsb_exists. exists (role h). split; [exact Hr | apply String.eqb_refl].
Qed.

(** X13.  When [get_recipients_by_roles] returns, it has changed nothing,
    its list has no address twice, and an address is in it exactly when it
    is the email of an enabled user of type "System User" who holds, by a
    row of Has Role, one of the given roles. *)
Theorem recipients_are_distinct_enabled_role_holders
    (roles : list string) (w w' : World) (rs : list string) :
  get_recipients_by_roles raises roles w = (Ok rs, w') ->
  w' = w
  /\ NoDup rs
  /\ forall a,
       In a rs <->
       exists u, In u (users w) /\ enabled u = true
                 /\ user_type u = "System User" /\ email u = Some a
                 /\ exists h, In h (has_roles w) /\ parent h = user_name u
                              /\ In (role h) roles.
Proof.
  unfold get_recipients_by_roles, call.
  destruct (raises (OpRecipientsQuery roles) w); [discriminate|].
  intros [= <- <-]. split; [reflexivity|]. split; [apply distinct_NoDup|].
  intros a. unfold recipient_rows. rewrite distinct_In, in_flat_map. split.
  - intros [u [Hu Ha]].
    destruct (enabled u && String.eqb (user_type u) "System User"
              && holds_role roles u (has_roles w)) eqn:E; [|destruct Ha].
    apply andb_true_iff in E as [E Hrole]. apply andb_true_iff in E as [Hen Hty].
    apply String.eqb_eq in Hty. apply holds_role_iff in Hrole.
    destruct (email u) as [x|] eqn:Hemail; [|destruct Ha].
    destruct Ha as [<- | []]. exists u. auto.
  - intros [u [Hu [Hen [Hty [Hemail Hrole]]]]]. exists u. split; [exact Hu|].
    apply holds_role_iff in Hrole. apply String.eqb_eq in Hty.
    rewrite Hen, Hty, Hrole, Hemail. left. reflexivity.
Qed.

Lemma filter_length_pos {A : Type} (f : A -> bool) (l : list A) :
  0 < List.length (filter f l) <-> exists x, In x l /\ f x = true.
Proof.
  induction l as [|a l IH]; simpl.
  - split; [lia | intros [x [[] _]]].
  - destruct (f a) eqn:E; simpl.
    + split; [eauto | lia].
    + rewrite IH. split; intros [x [Hin Hx]]; [eauto|].
      destruct Hin as [-> | Hin]; [congruence | eauto].
Qed.

Lemma report_rows_In w st n :
  In (st, n) (report_rows w)
  <-> st <> Duplicate /\ n = count_today w st /\ 0 < n.
Proof.
  unfold report_rows. simpl.
  destruct (count_today w Ignored) as [|i] eqn:Ei;
  destruct (count_today w Pending) as [|p] eqn:Ep;
  destruct (count_today w Processed) as [|d] eqn:Ed; simpl.
  all: split;
    [ intros H;
      repeat (destruct H as [[= <- <-] | H];
              [split; [discriminate | split; [congruence | lia]]|]);
      destruct H
    | intros (Hst & -> & Hpos); destruct st; try contradiction;
      rewrite ?Ei, ?Ep, ?Ed in *; simpl; auto; lia ].
Qed.

(** X14.  What the grouped query hands to the report, read against the
    staging table itself.  A pair (status, n) is in the summary exactly
    when the status is not Duplicate and n is the positive number of staged
    rows with that status whose timestamp falls on the current day.  So
    every row of today that is Pending, Ignored or Processed is counted
    under its status, a row of another day never makes a status appear,
    the summary is empty exactly when today has no such row, and no status
    appears twice. *)
Theorem report_rows_are_todays_counts (w : World) :
  NoDup (map fst (report_rows w))
  /\ (forall st n,
        In (st, n) (report_rows w)
        <-> st <> Duplicate /\ 0 < n
            /\ n = List.length
                     (filter (fun r => Status_eqb (status r) st
                                       && (timestamp r / 86400 =? curdate w)%Z)
                             (staging w)))
  /\ (forall r, In r (staging w) -> status r <> Duplicate ->
                (timestamp r / 86400)%Z = curdate w ->
                exists n, 0 < n /\ In (status r, n) (report_rows w))
  /\ (forall st n, In (st, n) (report_rows w) ->
                   exists r, In r (staging w) /\ status r = st
                             /\ (timestamp r / 86400)%Z = curdate w)
  /\ (report_rows w = []
      <-> forall r, In r (staging w) -> (timestamp r / 86400)%Z = curdate w ->
                    status r = Duplicate).
Proof.
  assert (Hraw : forall st,
            count_today w st
            = List.length
                (filter (fun r => Status_eqb (status r) st
                                  && (timestamp r / 86400 =? curdate w)%Z)
                        (staging w))) by reflexivity.
  assert (Hin : forall st n,
            In (st, n) (report_rows w)
            <-> st <> Duplicate /\ 0 < n
                /\ n = List.length
                         (filter (fun r => Status_eqb (status r) st
                                           && (timestamp r / 86400 =? curdate w)%Z)
                                 (staging w))).
  { intros st n. rewrite report_rows_In, Hraw. tauto. }
  assert (Hrow : forall r, In r (staging w) -> status r <> Duplicate ->
                   (timestamp r / 86400)%Z = curdate w ->
                   exists n, 0 < n /\ In (status r, n) (report_rows w)).
  { intros r Hr Hst Hday. eexists. split; [|apply Hin; split; [exact Hst|]; split; [|reflexivity]].
    all: apply filter_length_pos; exists r; split; [exact Hr|].
    all: apply andb_true_iff; split; [apply Status_eqb_eq; reflexivity|].
    all: apply Z.eqb_eq; exact Hday. }
  assert (Hback : forall st n, In (st, n) (report_rows w) ->
                    exists r, In r (staging w) /\ status r = st
                              /\ (timestamp r / 86400)%Z = curdate w).
  { intros st n H. apply Hin in H as (_ & Hpos & ->).
    apply filter_length_pos in Hpos as [r [Hr Hf]].
    apply andb_true_iff in Hf as [Hs Hd].
    apply Status_eqb_eq in Hs. apply Z.eqb_eq in Hd. eauto. }
  split; [|split; [exact Hin | split; [exact Hrow | split; [exact Hback|]]]].
  - unfold report_rows. simpl.
    destruct (count_today w Ignored); destruct (count_today w Pending);
      destruct (count_today w Processed); simpl;
      repeat (constructor; [simpl; intuition discriminate|]); constructor.
  - split.
    + intros Hnil r Hr Hday.
      destruct (status r) eqn:Es; try reflexivity; exfalso.
      all: destruct (Hrow r Hr) as [n [_ Hn]];
        [rewrite Es; discriminate | exact Hday | rewrite Hnil in Hn; destruct Hn].
    + intros Hall. destruct (report_rows w) as [|[st n] rest] eqn:E; [reflexivity|].
      exfalso. assert (H0 : In (st, n) ((st, n) :: rest)) by (left; reflexivity).
      pose proof (proj1 (Hin st n) H0) as (Hst & _ & _).
      destruct (Hback st n H0) as [r [Hr [Hs Hd]]].
      apply Hst. rewrite <- Hs. apply Hall; assumption.
Qed.

End Report_paths.

(** * The scheduled wrappers *)

Section Scheduled.

Variable raises : Op -> World -> option string.

Lemma report_raise_keeps_store w m :
  fst (send_exceptional_report raises w) = Raise m ->
  snd (send_exceptional_report raises w) = w.
Proof.
  rewrite report_unfold.
  destruct (raises OpReportQuery w); [reflexivity|].
  destruct (report_rows w) as [|row rows]; [discriminate|].
  destruct (raises (OpRecipientsQuery report_roles) w); [reflexivity|].
  destruct (recipient_rows report_roles w) as [|rc rcs]; [discriminate|].
  destruct (raises OpGetValueSender w); [reflexivity|].
  destruct (lookup_sender w) as [s|]; [|discriminate].
  destruct (truthy (Some s)); [|discriminate].
  destruct (raises (OpInsertCommunication _) w); [reflexivity|].
  cbv zeta. destruct (raises (OpSendmail _) _); discriminate.
Qed.

Lemma execute_scheduled_job_unfold w :
  execute_scheduled_job raises w =
  match process_biometric_logs raises w with
  | (Ok _, w') => (Ok PyNone, w')
  | (Raise e, w') =>
      (Raise e,
       apply_log_error ("Error in scheduled biometric data synchronization: " +++ e)
                       "Scheduled Job Error" w')
  end.
Proof.
  unfold execute_scheduled_job, bind, try_except, log_error, reraise, ret.
  destruct (process_biometric_logs raises w) as [[v|e] w']; reflexivity.
Qed.

Lemma execute_scheduled_exceptional_report_unfold w :
  execute_scheduled_exceptional_report raises w =
  match send_exceptional_report raises w with
  | (Ok _, w') => (Ok PyNone, w')
  | (Raise e, w') =>
      (Raise e,
       apply_log_error ("Error in scheduled exceptional report: " +++ e)
                       "Scheduled Job Error" w')
  end.
Proof.
  unfold execute_scheduled_exceptional_report, bind, try_except, log_error,
    reraise, ret.
  destruct (send_exceptional_report raises w) as [[v|e] w']; reflexivity.
Qed.

(** X15.  The scheduled reconciliation job fails exactly when the read of
    the pending set or the final commit raises: it then re-raises the same
    error after adding one "Scheduled Job Error" entry to what the pass
    left.  When both calls return, the job returns None and leaves the
    store of the pass, however many records failed inside the loop: their
    failures add no "Scheduled Job Error" entry. *)
Theorem scheduled_job_outcome (w : World) :
  let r := execute_scheduled_job raises w in
  let wr := run raises (pending_logs (staging w)) w in
  match raises OpGetAllPending w with
  | Some m =>
      r = (Raise m,
           apply_log_error ("Error in scheduled biometric data synchronization: " +++ m)
                           "Scheduled Job Error" w)
  | None =>
      match raises OpCommit wr with
      | Some m =>
          r = (Raise m,
               apply_log_error
                 ("Error in scheduled biometric data synchronization: " +++ m)
                 "Scheduled Job Error" wr)
      | None =>
          r = (Ok PyNone, apply_commit wr)
          /\ forall entry, In entry (error_log (snd r)) ->
                In entry (error_log w) \/ snd entry = "Biometric Log Processing Error"
      end
  end.
Proof.
  intros r wr. subst r. rewrite execute_scheduled_job_unfold.
  destruct (raises OpGetAllPending w) as [m|] eqn:Hget.
  - rewrite (pass_get_all_raises raises w m Hget). reflexivity.
  - rewrite (pass_unfold raises w Hget). cbv zeta. fold wr.
    destruct (raises OpCommit wr) as [m|]; [reflexivity|].
    split; [reflexivity|]. simpl. intros entry Hin.
    assert (Hloop : forall logs w0 entry0,
              In entry0 (error_log (run raises logs w0)) ->
              In entry0 (error_log w0) \/ snd entry0 = error_title).
    { induction logs as [|x rest IH]; intros w0 entry0 H0; [left; exact H0|].
      rewrite run_cons in H0. destruct (IH _ _ H0) as [H1 | H1]; [|right; exact H1].
      destruct (step_error_entry raises x w0) as [[_ He] | [m [_ [_ He]]]];
        rewrite He in H1; [left; exact H1|].
      apply in_app_or in H1 as [H1 | [<- | []]]; [left; exact H1 | right; reflexivity]. }
    apply (Hloop _ _ _ Hin).
Qed.

(** X16.  The scheduled report job fails exactly when the report raises:
    it then re-raises the same error and the only trace it leaves is one
    "Scheduled Job Error" entry in the error log, everything else being as
    before the job.  Otherwise it returns None with the store of the
    report; in particular a mail the server refuses does not fail the
    job. *)
Theorem scheduled_report_outcome (w : World) :
  let r := execute_scheduled_exceptional_report raises w in
  (forall m, fst (send_exceptional_report raises w) = Raise m ->
     r = (Raise m,
          apply_log_error ("Error in scheduled exceptional report: " +++ m)
                          "Scheduled Job Error" w))
  /\ (forall v, fst (send_exceptional_report raises w) = Ok v ->
       r = (Ok PyNone, snd (send_exceptional_report raises w)))
  /\ (forall s m, report_ready raises w s ->
       raises (OpSendmail (report_mail w s)) (with_report_communication w s) = Some m ->
       fst r = Ok PyNone
       /\ error_log (snd r)
          = error_log w ++ [("Failed to send email: " +++ m, "Exceptional Report")]).
Proof.
  intros r. subst r. rewrite execute_scheduled_exceptional_report_unfold.
  split; [|split].
  - intros m Hm.
    pose proof (report_raise_keeps_store w m Hm) as Hw.
    destruct (send_exceptional_report raises w) as [[v|e] w']; simpl in *;
      [discriminate|]. congruence.
  - intros v Hv.
    destruct (send_exceptional_report raises w) as [[v'|e] w']; simpl in *;
      [reflexivity | discriminate].
  - intros s m Hready Hsend.
    rewrite (report_ready_unfold raises w s Hready), Hsend. split; reflexivity.
Qed.

End Scheduled.

(** * Two pending records with the same key *)

Section Twins.

Variable raises : Op -> World -> option string.
Hypothesis quiet : forall op w, raises op w = None.

Lemma run_has_checkin_true logs w e t :
  has_checkin e t (checkins w) = true ->
  has_checkin e t (checkins (run raises logs w)) = true.
Proof.
  intros H. destruct (run_checkins raises logs w) as [added ->].
  rewrite has_checkin_app, H. reflexivity.
Qed.

Lemma step_quiet_has_checkin log w e :
  lookup_employee (log_attendance_device_id log) (employees w) = Some e ->
  e <> EmptyString ->
  has_checkin e (log_timestamp log) (checkins (step raises log w)) = true.
Proof.
  intros He Hne. destruct (step_quiet raises quiet log w) as [_ ->].
  rewrite has_checkin_app. unfold added_checkins, verdict.
  rewrite He, (truthy_nonempty e Hne).
  destruct (has_checkin e (log_timestamp log) (checkins w)); [reflexivity|].
  simpl. unfold checkin_matches. simpl.
  rewrite String.eqb_refl, Z.eqb_refl. reflexivity.
Qed.

(** X17.  In a pass in which no call raises, of two pending records that
    resolve to the same employee and carry the same timestamp, the one the
    loop reaches second ends as Duplicate, whether the checkin it collides
    with was in the table before or was inserted for the first one during
    this very pass. *)
Theorem later_twin_is_duplicate
    (w0 : World) (pre mid post : list Log) (l1 l2 : Log) (e : string) :
  NoDup (map name (staging w0)) ->
  pending_logs (staging w0) = pre ++ l1 :: mid ++ l2 :: post ->
  lookup_employee (log_attendance_device_id l1) (employees w0) = Some e ->
  lookup_employee (log_attendance_device_id l2) (employees w0) = Some e ->
  e <> EmptyString ->
  log_timestamp l1 = log_timestamp l2 ->
  let wf := snd (process_biometric_logs raises w0) in
  status_of (log_name l2) (staging wf) = Some Duplicate
  /\ has_checkin e (log_timestamp l2) (checkins wf) = true.
Proof.
  intros Hnd Hsplit He1 He2 Hne Hts wf. subst wf.
  assert (Hsplit' : pending_logs (staging w0) = (pre ++ l1 :: mid) ++ l2 :: post)
    by (rewrite Hsplit, <- app_assoc; reflexivity).
  set (w2 := run raises (pre ++ l1 :: mid) w0).
  assert (Hhas : has_checkin e (log_timestamp l2) (checkins w2) = true).
  { subst w2. rewrite run_app, run_cons. apply run_has_checkin_true.
    rewrite <- Hts. apply step_quiet_has_checkin; [|exact Hne].
    rewrite run_employees. exact He1. }
  destruct (reached_pending raises w0 _ l2 post Hnd Hsplit') as [Hpend _].
  fold w2 in Hpend.
  destruct (step_quiet raises quiet l2 w2) as [Hs Hc].
  assert (Hv : verdict w2 l2 = Duplicate).
  { assert (Hemp : employees w2 = employees w0) by apply run_employees.
    unfold verdict. rewrite Hemp, He2, (truthy_nonempty e Hne), Hhas.
    reflexivity. }
  split.
  - rewrite (final_status raises w0 _ l2 post Hnd (quiet _ _) Hsplit').
    fold w2. rewrite Hs, Hv.
    apply status_of_set_status_same. eapply status_of_in. exact Hpend.
  - rewrite (final_checkins raises w0 _ l2 post (quiet _ _) Hsplit'). fold w2.
    apply run_has_checkin_true. rewrite Hc, has_checkin_app, Hhas. reflexivity.
Qed.

End Twins.

(** ** Runs on the sample stores, continued *)

Lemma pass_keeps_checkins_unique_witness :
  count_checkins "HR-EMP-00001" T0
    (checkins (snd (process_biometric_logs no_raise sample_world))) <= 1.
Proof.
  apply (pass_keeps_checkins_unique no_raise sample_world).
  intros e t. unfold count_checkins. simpl.
  destruct (checkin_matches e t _); simpl; lia.
Defined.

Lemma pass_raises_only_at_read_or_commit_witness :
  snd (process_biometric_logs db_down sample_world) = sample_world.
Proof.
  destruct (pass_raises_only_at_read_or_commit db_down sample_world
              "OperationalError" eq_refl) as [[_ H] | [H _]];
    [exact H | discriminate H].
Defined.

Lemma pass_on_settled_store_witness :
  let wf := snd (process_biometric_logs no_raise settled_world) in
  staging wf = staging settled_world
  /\ checkins wf = checkins settled_world
  /\ journal wf = journal settled_world ++ [OpCommit].
Proof.
  assert (Hsettled : forall r, In r (staging settled_world) -> status r <> Pending).
  { intros r [<- | [<- | []]]; discriminate. }
  pose proof (pass_on_settled_store no_raise settled_world Hsettled) as H.
  cbv zeta in H. destruct H as (H1 & H2 & _ & _ & H5).
  cbv zeta. split; [exact H1 | split; [exact H2 | exact (H5 eq_refl)]].
Defined.

Lemma half_done_record_becomes_duplicate_witness :
  let w1 := step status_write_fails_once log1 sample_world in
  checkins w1 = checkins sample_world ++ [new_checkin "HR-EMP-00001" log1]
  /\ step status_write_fails_once log1 w1 = apply_set_status "BDS-0001" Duplicate w1.
Proof.
  pose proof (half_done_record_becomes_duplicate status_write_fails_once
                log1 sample_world "HR-EMP-00001" "QueryDeadlockError"
                eq_refl ltac:(discriminate) eq_refl) as H.
  cbv zeta in H. destruct H as (H1 & _ & H3).
  cbv zeta. split; [exact H1|].
  apply (H3 _ []); [reflexivity | symmetry; apply app_nil_r | reflexivity].
Defined.

Lemma pass_logs_one_entry_per_record_left_pending_witness :
  let wf := snd (process_biometric_logs insert_refused sample_world) in
  exists added,
    error_log wf = error_log sample_world ++ added /\ List.length added = 1.
Proof.
  destruct (pass_logs_one_entry_per_record_left_pending insert_refused
              sample_world sample_world_keys eq_refl) as (added & H1 & _ & H3).
  cbv zeta. exists added. split; [exact H1 | rewrite H3; reflexivity].
Defined.

Lemma quiet_pass_accounts_for_every_record_witness :
  let wf := snd (process_biometric_logs no_raise sample_world) in
  count_outcome sample_world wf Ignored + count_outcome sample_world wf Duplicate
  + count_outcome sample_world wf Processed = 3
  /\ List.length (checkins wf) = 2.
Proof.
  pose proof (quiet_pass_accounts_for_every_record no_raise (fun _ _ => eq_refl)
                sample_world sample_world_keys) as H.
  cbv zeta in H. destruct H as (H1 & _ & H3).
  cbv zeta. split; [exact H1 | rewrite H3; reflexivity].
Defined.

Lemma reporting_world_ready_no_raise :
  report_ready no_raise reporting_world "noreply@example.com".
Proof. repeat split; try reflexivity; vm_compute; discriminate. Qed.

Lemma reporting_world_ready_smtp_down :
  report_ready smtp_down reporting_world "noreply@example.com".
Proof. repeat split; try reflexivity; vm_compute; discriminate. Qed.

Lemma report_sends_one_mail_witness :
  let r := send_exceptional_report no_raise reporting_world in
  fst r = Ok PyNone
  /\ outbox (snd r) = [report_mail reporting_world "noreply@example.com"]
  /\ error_log (snd r) = [].
Proof.
  pose proof (report_sends_one_mail no_raise reporting_world "noreply@example.com"
                reporting_world_ready_no_raise eq_refl) as H.
  cbv zeta in H. destruct H as (H1 & _ & H3 & _ & H5).
  cbv zeta. split; [exact H1 | split; [exact H3 | exact H5]].
Defined.

Lemma report_survives_mail_failure_witness :
  let r := send_exceptional_report smtp_down reporting_world in
  fst r = Ok PyNone
  /\ outbox (snd r) = []
  /\ communications (snd r)
     = [report_communication reporting_world "noreply@example.com"]
  /\ error_log (snd r)
     = [("Failed to send email: SMTPServerDisconnected", "Exceptional Report")].
Proof.
  pose proof (report_survives_mail_failure smtp_down reporting_world
                "noreply@example.com" "SMTPServerDisconnected"
                reporting_world_ready_smtp_down eq_refl) as H.
  cbv zeta in H. destruct H as (H1 & H2 & H3 & H4 & _).
  cbv zeta. split; [exact H1 | split; [exact H2 | split; [exact H3 | exact H4]]].
Defined.

Lemma report_raises_leave_store_untouched_witness :
  snd (send_exceptional_report db_down reporting_world) = reporting_world.
Proof.
  exact (proj1 (report_raises_leave_store_untouched db_down reporting_world
                  "OperationalError" eq_refl)).
Defined.

Lemma recipients_are_distinct_enabled_role_holders_witness :
  NoDup (recipient_rows report_roles reporting_world)
  /\ (In "hr@example.com" (recipient_rows report_roles reporting_world)
      <-> exists u, In u (users reporting_world) /\ enabled u = true
                    /\ user_type u = "System User"
                    /\ email u = Some "hr@example.com"
                    /\ exists h, In h (has_roles reporting_world)
                                 /\ parent h = user_name u
                                 /\ In (role h) report_roles).
Proof.
  pose proof (recipients_are_distinct_enabled_role_holders no_raise report_roles
                reporting_world reporting_world
                (recipient_rows report_roles reporting_world) eq_refl) as H.
  destruct H as (_ & H2 & H3). split; [exact H2 | exact (H3 "hr@example.com")].
Defined.

Lemma later_twin_is_duplicate_witness :
  let wf := snd (process_biometric_logs no_raise twin_world) in
  status_of "BDS-0002" (staging wf) = Some Duplicate
  /\ has_checkin "HR-EMP-00001" 1735725600 (checkins wf) = true.
Proof.
  assert (Hkeys : NoDup (map name (staging twin_world))).
  { simpl. distinct_names. }
  exact (later_twin_is_duplicate no_raise (fun _ _ => eq_refl) twin_world
           [] [] []
           (mkLog "BDS-0001" "A100" 1735725600 "IN" "D1")
           (mkLog "BDS-0002" "A100" 1735725600 "OUT" "D2")
           "HR-EMP-00001" Hkeys eq_refl eq_refl eq_refl
           ltac:(discriminate) eq_refl).
Defined.
